(** * Nightfall input mapping engine: a shallow embedding and its properties

    The development follows [src/game/src/input/InputDevices.{h,cpp}] and
    [src/game/src/input/InputMapping.{h,cpp}]: the device snapshot, the
    binding table, [InputMapping::compute_state] with the methods built on
    it, and the JSON reader behind [InputMappingSpec::FromJson].

    Numbers.  The C++ code computes on [float] (and on [double] inside the
    JSON reader).  Here every such number is an exact rational [Q]: the
    comparisons, [std::fabs] and [std::clamp] are the ones of the source;
    rounding, infinities and NaN are outside the model.  A decimal literal
    of the source ([0.1f], [1e-3f], [0.5f]) is the fraction it denotes.

    Maps.  Every [std::unordered_map<std::string, T>] is a [gmap string T].

    State.  [compute_state] writes the [mutable] fields of the
    [RuntimeAction] it is handed; the embedding returns the updated
    [RuntimeAction] next to the [ActionState], and the methods of
    [InputMapping] thread the action table [_actions] explicitly.

    Errors.  A thrown [std::runtime_error] is the [Err] case of [result],
    carrying the message of the exception.

    Layout.  The embedding comes first, then the frames, calls and sample
    data the statements use, then the properties. *)

From Stdlib Require Import QArith Qabs Lqa Ascii String.
From stdpp Require Import base option list strings gmap fin_maps.

#[local] Set Warnings "-clear-no-such-hyp".

Local Open Scope Q_scope.
Local Open Scope string_scope.

(** ** Numbers *)

Abbreviation float := Q (only parsing).

(** [a <= b] and [a < b] of the source, as booleans. *)
Definition fle (a b : float) : bool := Qle_bool a b.
Definition flt (a b : float) : bool := negb (Qle_bool b a).

(** [std::fabs]. *)
Definition fabs (x : float) : float := Qabs x.

(** [std::clamp(v, lo, hi)]: [(v < lo) ? lo : (hi < v) ? hi : v]. *)
Definition clamp (v lo hi : float) : float :=
  if flt v lo then lo else if flt hi v then hi else v.

(** ** InputDevices.h *)

Inductive DeviceKind := Keyboard | Mouse | Gamepad.

Record ButtonState := {
  pressed : bool;
  was_pressed : bool
}.

Definition just_pressed (b : ButtonState) : bool :=
  pressed b && negb (was_pressed b).

Definition just_released (b : ButtonState) : bool :=
  negb (pressed b) && was_pressed b.

Record RawKeyboardState := {
  keys : gmap string ButtonState
}.

Record RawMouseState := {
  mouse_buttons : gmap string ButtonState;
  position_x : float;
  position_y : float;
  delta_x : float;
  delta_y : float;
  wheel_delta : float
}.

Record RawGamepadState := {
  gamepad_buttons : gmap string ButtonState;
  axes : gmap string float;
  previous_axes : gmap string float
}.

Record RawInputState := {
  keyboard : RawKeyboardState;
  mouse : RawMouseState;
  gamepad : RawGamepadState;
  delta_time : float
}.

(** ** InputDevices.cpp *)

Definition kEmptyButton : ButtonState :=
  {| pressed := false; was_pressed := false |}.

(** [RawKeyboardState::get]. *)
Definition keyboard_get (k : RawKeyboardState) (key : string) : ButtonState :=
  match keys k !! key with
  | None => kEmptyButton
  | Some b => b
  end.

(** [RawMouseState::get]. *)
Definition mouse_get (m : RawMouseState) (button : string) : ButtonState :=
  match mouse_buttons m !! button with
  | None => kEmptyButton
  | Some b => b
  end.

(** [RawGamepadState::get_button]. *)
Definition get_button (g : RawGamepadState) (button : string) : ButtonState :=
  match gamepad_buttons g !! button with
  | None => kEmptyButton
  | Some b => b
  end.

(** [RawGamepadState::axis_value]. *)
Definition axis_value (g : RawGamepadState) (axis : string)
    (default_value : float) : float :=
  match axes g !! axis with
  | None => default_value
  | Some v => v
  end.

(** ** InputMapping.h *)

Inductive BindingKind := Button | Axis | Pointer.

Inductive AxisInterpretation := Analog | Digital.

Record BindingDescriptor := {
  device : DeviceKind;
  kind : BindingKind;
  control : string;
  scale : float;
  deadzone : float;
  toggle : bool;
  interpretation : AxisInterpretation
}.

(** The member initialisers of [BindingDescriptor]. *)
Definition default_descriptor : BindingDescriptor :=
  {| device := Keyboard; kind := Button; control := "";
     scale := 1; deadzone := 1 # 10; toggle := false;
     interpretation := Analog |}.

Record ActionBindingSpec := {
  action_id : string;
  bindings : list BindingDescriptor;
  smoothing_window : float;
  analog_threshold : float
}.

Record InputMappingSpec := {
  actions : list ActionBindingSpec
}.

Record ActionState := {
  value : float;
  active : bool;
  triggered : bool;
  released : bool
}.

(** [ActionState{}]. *)
Definition default_state : ActionState :=
  {| value := 0; active := false; triggered := false; released := false |}.

Record RuntimeBinding := {
  descriptor : BindingDescriptor
}.

Record RuntimeAction := {
  spec : ActionBindingSpec;
  runtime_bindings : list RuntimeBinding;
  smoothed_value : float;
  previous_value : float;
  previous_active : bool;
  toggle_state : bool;
  toggle_scale : float
}.

(** [InputState::_states] and [InputMapping::_actions]. *)
Abbreviation InputState := (gmap string ActionState) (only parsing).
Abbreviation InputMapping := (gmap string RuntimeAction) (only parsing).

(** ** InputMapping.cpp: reading a snapshot *)

Definition button_of (d : BindingDescriptor) (state : RawInputState)
    : ButtonState :=
  match device d with
  | Keyboard => keyboard_get (keyboard state) (control d)
  | Mouse => mouse_get (mouse state) (control d)
  | Gamepad => get_button (gamepad state) (control d)
  end.

Definition extract_axis_value (d : BindingDescriptor) (state : RawInputState)
    : float :=
  match device d with
  | Keyboard =>
      let button := keyboard_get (keyboard state) (control d) in
      if pressed button then scale d else 0
  | Mouse =>
      if String.eqb (control d) "x" || String.eqb (control d) "delta_x"
      then delta_x (mouse state) * scale d
      else if String.eqb (control d) "y" || String.eqb (control d) "delta_y"
      then delta_y (mouse state) * scale d
      else if String.eqb (control d) "wheel" || String.eqb (control d) "scroll"
      then wheel_delta (mouse state) * scale d
      else if String.eqb (control d) "position_x"
      then position_x (mouse state) * scale d
      else if String.eqb (control d) "position_y"
      then position_y (mouse state) * scale d
      else 0
  | Gamepad => axis_value (gamepad state) (control d) 0 * scale d
  end.

Definition extract_toggle_transition (d : BindingDescriptor)
    (state : RawInputState) : bool :=
  if negb (toggle d) then false
  else match device d with
       | Keyboard => just_pressed (keyboard_get (keyboard state) (control d))
       | Mouse => just_pressed (mouse_get (mouse state) (control d))
       | Gamepad => just_pressed (get_button (gamepad state) (control d))
       end.

Definition extract_button_pressed (d : BindingDescriptor)
    (state : RawInputState) : bool :=
  match device d with
  | Keyboard => pressed (keyboard_get (keyboard state) (control d))
  | Mouse => pressed (mouse_get (mouse state) (control d))
  | Gamepad => pressed (get_button (gamepad state) (control d))
  end.

Definition extract_button_triggered (d : BindingDescriptor)
    (state : RawInputState) : bool :=
  match device d with
  | Keyboard => just_pressed (keyboard_get (keyboard state) (control d))
  | Mouse => just_pressed (mouse_get (mouse state) (control d))
  | Gamepad => just_pressed (get_button (gamepad state) (control d))
  end.

Definition extract_button_released (d : BindingDescriptor)
    (state : RawInputState) : bool :=
  match device d with
  | Keyboard => just_released (keyboard_get (keyboard state) (control d))
  | Mouse => just_released (mouse_get (mouse state) (control d))
  | Gamepad => just_released (get_button (gamepad state) (control d))
  end.

(** ** InputMapping.cpp: [InputMapping::compute_state] *)

(** The local variables of [compute_state] that the loop over the
    bindings reads and writes. *)
Record Locals := {
  acc_value : float;
  any_pressed : bool;
  any_triggered : bool;
  any_released : bool;
  has_toggle : bool;
  toggle_value : bool;
  acc_toggle_scale : float;
  toggle_turned_on : bool;
  toggle_turned_off : bool
}.

(** Their values on entry to the loop. *)
Definition init_locals (action : RuntimeAction) : Locals :=
  {| acc_value := 0;
     any_pressed := false;
     any_triggered := false;
     any_released := false;
     has_toggle := false;
     toggle_value := toggle_state action;
     acc_toggle_scale := toggle_scale action;
     toggle_turned_on := false;
     toggle_turned_off := false |}.

(** One iteration of [for (const auto& runtime_binding : action.bindings)]. *)
Definition binding_step (action : RuntimeAction) (state : RawInputState)
    (L : Locals) (runtime_binding : RuntimeBinding) : Locals :=
  let d := descriptor runtime_binding in
  match kind d with
  | Button =>
      let is_pressed := extract_button_pressed d state in
      let any_pressed1 := any_pressed L || is_pressed in
      let any_triggered1 := any_triggered L || extract_button_triggered d state in
      let any_released1 := any_released L || extract_button_released d state in
      if toggle d then
        if extract_toggle_transition d state then
          let previous_toggle := toggle_value L in
          let toggle_value1 := negb (toggle_value L) in
          {| acc_value := acc_value L;
             any_pressed := any_pressed1;
             any_triggered := any_triggered1;
             any_released := any_released1;
             has_toggle := true;
             toggle_value := toggle_value1;
             acc_toggle_scale := scale d;
             toggle_turned_on :=
               if negb previous_toggle && toggle_value1 then true
               else toggle_turned_on L;
             toggle_turned_off :=
               if previous_toggle && negb toggle_value1 then true
               else toggle_turned_off L |}
        else
          {| acc_value := acc_value L;
             any_pressed := any_pressed1;
             any_triggered := any_triggered1;
             any_released := any_released1;
             has_toggle := true;
             toggle_value := toggle_value L;
             acc_toggle_scale := scale d;
             toggle_turned_on := toggle_turned_on L;
             toggle_turned_off := toggle_turned_off L |}
      else
        {| acc_value := acc_value L + (if is_pressed then scale d else 0);
           any_pressed := any_pressed1;
           any_triggered := any_triggered1;
           any_released := any_released1;
           has_toggle := has_toggle L;
           toggle_value := toggle_value L;
           acc_toggle_scale := acc_toggle_scale L;
           toggle_turned_on := toggle_turned_on L;
           toggle_turned_off := toggle_turned_off L |}
  | _ =>
      let axis_value0 := extract_axis_value d state in
      let axis_value1 :=
        if fle (fabs axis_value0) (deadzone d) then 0 else axis_value0 in
      match interpretation d with
      | Digital =>
          let is_active := flt (deadzone d) (fabs axis_value1) in
          {| acc_value :=
               if is_active
               then acc_value L + scale d * (if fle 0 axis_value1 then 1 else - (1))
               else acc_value L;
             any_pressed := any_pressed L || is_active;
             any_triggered :=
               if is_active && fle (fabs (previous_value action)) (deadzone d)
               then true else any_triggered L;
             any_released :=
               if negb is_active && flt (deadzone d) (fabs (previous_value action))
               then true else any_released L;
             has_toggle := has_toggle L;
             toggle_value := toggle_value L;
             acc_toggle_scale := acc_toggle_scale L;
             toggle_turned_on := toggle_turned_on L;
             toggle_turned_off := toggle_turned_off L |}
      | Analog =>
          {| acc_value := acc_value L + axis_value1;
             any_pressed :=
               if flt (deadzone d) (fabs axis_value1) then true
               else any_pressed L;
             any_triggered := any_triggered L;
             any_released := any_released L;
             has_toggle := has_toggle L;
             toggle_value := toggle_value L;
             acc_toggle_scale := acc_toggle_scale L;
             toggle_turned_on := toggle_turned_on L;
             toggle_turned_off := toggle_turned_off L |}
      end
  end.

(** The whole loop, bindings in declared order. *)
Definition fold_bindings (action : RuntimeAction) (state : RawInputState)
    : Locals :=
  fold_left (binding_step action state) (runtime_bindings action)
            (init_locals action).

(** The [if (has_toggle) { ... } else { ... }] block after the loop, as far
    as the locals go; the two stores into [action] are in [compute_state]. *)
Definition apply_toggle (L : Locals) : Locals :=
  if has_toggle L then
    {| acc_value :=
         if toggle_value L then acc_value L + acc_toggle_scale L
         else acc_value L;
       any_pressed := if toggle_value L then true else any_pressed L;
       any_triggered := if toggle_turned_on L then true else any_triggered L;
       any_released := if toggle_turned_off L then true else any_released L;
       has_toggle := has_toggle L;
       toggle_value := toggle_value L;
       acc_toggle_scale := acc_toggle_scale L;
       toggle_turned_on := toggle_turned_on L;
       toggle_turned_off := toggle_turned_off L |}
  else L.

(** The value of the local [value] when the loop and the toggle block are
    done, before [std::clamp]: the accumulated value of the specification. *)
Definition accumulated_value (action : RuntimeAction) (state : RawInputState)
    : float :=
  acc_value (apply_toggle (fold_bindings action state)).

(** Lines 619-626: clamp, then interpolate from [previous_value]. *)
Definition smooth (action : RuntimeAction) (state : RawInputState)
    (clamped : float) : float :=
  if flt 0 (smoothing_window (spec action)) && flt 0 (delta_time state) then
    let t := delta_time state / smoothing_window (spec action) in
    let t := clamp t 0 1 in
    previous_value action + (clamped - previous_value action) * t
  else clamped.

Definition compute_state (action : RuntimeAction) (state : RawInputState)
    : ActionState * RuntimeAction :=
  let L0 := fold_bindings action state in
  let L := apply_toggle L0 in
  let toggle_state1 := if has_toggle L0 then toggle_value L0 else false in
  let toggle_scale1 := if has_toggle L0 then acc_toggle_scale L0 else 1 in
  let value1 := clamp (acc_value L) (- (1)) 1 in
  let smoothed := smooth action state value1 in
  let is_active := any_pressed L || flt (1 # 1000) (fabs smoothed) in
  let threshold := analog_threshold (spec action) in
  let is_triggered :=
    if negb (any_triggered L) && flt 0 threshold
    then fle threshold (fabs smoothed)
         && flt (fabs (previous_value action)) threshold
    else any_triggered L in
  let is_released :=
    if negb (any_released L) && flt 0 threshold
    then fle (fabs smoothed) (threshold * (1 # 2))
         && flt (threshold * (1 # 2)) (fabs (previous_value action))
    else any_released L in
  ({| value := smoothed;
      active := is_active;
      triggered := is_triggered;
      released := is_released |},
   {| spec := spec action;
      runtime_bindings := runtime_bindings action;
      smoothed_value := smoothed_value action;
      previous_value := smoothed;
      previous_active := is_active;
      toggle_state := toggle_state1;
      toggle_scale := toggle_scale1 |}).

(** ** InputMapping.cpp: [InputState] *)

Definition set_state (action : string) (state : ActionState)
    (_states : InputState) : InputState :=
  <[action := state]> _states.

Definition has_action (action : string) (_states : InputState) : bool :=
  bool_decide (is_Some (_states !! action)).

Definition state_for (action : string) (_states : InputState) : ActionState :=
  match _states !! action with
  | None => default_state
  | Some s => s
  end.

Definition value_or (action : string) (fallback : float)
    (_states : InputState) : float :=
  match _states !! action with
  | None => fallback
  | Some s => value s
  end.

(** ** InputMapping.cpp: the methods of [InputMapping] *)

(** A thrown [std::runtime_error(msg)] is [Err msg]. *)
Inductive result (A : Type) : Type :=
  | Ok (a : A)
  | Err (msg : string).
Arguments Ok {A} a.
Arguments Err {A} msg.

(** Sequencing stops at the first exception: [x ← r; k]. *)
#[export] Instance result_bind : MBind result := fun A B k r =>
  match r with
  | Ok a => k a
  | Err msg => Err msg
  end.

(** [_actions.emplace(key, v)]: no effect when the key is already there. *)
Definition emplace {A : Type} (key : string) (v : A) (m : gmap string A)
    : gmap string A :=
  match m !! key with
  | Some _ => m
  | None => <[key := v]> m
  end.

(** The [RuntimeAction] that [load] builds for one entry of the spec: the
    member initialisers, [spec] and one [RuntimeBinding] per descriptor. *)
Definition runtime_of (action : ActionBindingSpec) : RuntimeAction :=
  {| spec := action;
     runtime_bindings := Build_RuntimeBinding <$> bindings action;
     smoothed_value := 0;
     previous_value := 0;
     previous_active := false;
     toggle_state := false;
     toggle_scale := 1 |}.

(** [InputMapping::load]: [_actions.clear()], then one [emplace] per action
    of the spec, in order. *)
Definition load (spec0 : InputMappingSpec) (_actions : InputMapping)
    : InputMapping :=
  fold_left (fun m action => emplace (action_id action) (runtime_of action) m)
            (actions spec0) (∅ : InputMapping).

(** [InputMapping::rebind].  The pair is what the call gives back (normal
    return or the exception) and the action table it leaves behind. *)
Definition rebind (action : string) (new_bindings : list BindingDescriptor)
    (_actions : InputMapping) : result unit * InputMapping :=
  match _actions !! action with
  | None => (Err ("unknown action: " ++ action), _actions)
  | Some it =>
      (Ok tt,
       <[action :=
           {| spec := spec it;
              runtime_bindings := Build_RuntimeBinding <$> new_bindings;
              smoothed_value := smoothed_value it;
              previous_value := previous_value it;
              previous_active := previous_active it;
              toggle_state := toggle_state it;
              toggle_scale := toggle_scale it |}]> _actions)
  end.

(** [InputMapping::evaluate]: every action is computed once; the states go
    to the result, the written-back actions stay in the table. *)
Definition evaluate (state : RawInputState) (_actions : InputMapping)
    : InputState * InputMapping :=
  ((fun action => fst (compute_state action state)) <$> _actions,
   (fun action => snd (compute_state action state)) <$> _actions).

(** [InputMapping::evaluate_action]. *)
Definition evaluate_action (action : string) (state : RawInputState)
    (_actions : InputMapping) : ActionState * InputMapping :=
  match _actions !! action with
  | None => (default_state, _actions)
  | Some it =>
      (fst (compute_state it state),
       <[action := snd (compute_state it state)]> _actions)
  end.

(** ** InputMapping.cpp: the JSON document and [InputMappingSpec::FromJson] *)

(** [JsonValue]: the [std::variant] over null, bool, double, string, array
    and object; [JsonObject] is an unordered map from keys to values. *)
#[warnings="-register-all"]
Inductive JsonValue : Type :=
  | JNull
  | JBool (b : bool)
  | JNumber (x : float)
  | JString (s : string)
  | JArray (a : list JsonValue)
  | JObject (o : gmap string JsonValue).

Definition parse_binding_kind (text : string) : BindingKind :=
  if String.eqb text "axis" then Axis
  else if String.eqb text "pointer" then Pointer
  else Button.

Definition parse_interpretation (text : string) : AxisInterpretation :=
  if String.eqb text "digital" || String.eqb text "binary" then Digital
  else Analog.

Definition parse_device_kind (text : string) : DeviceKind :=
  if String.eqb text "mouse" then Mouse
  else if String.eqb text "gamepad" || String.eqb text "controller" then Gamepad
  else Keyboard.

(** *** [JsonParser]

    The reader holds [text_] and [position_]; the embedding keeps the part
    of the text from [position_] on, the unread rest.  [peek] is its first
    character, [consume] removes it, [position_ == text_.size()] is the
    rest being empty.  What a member function leaves behind is the value
    it returns and the new rest, or the exception. *)
Inductive parsed (A : Type) : Type :=
  | Parsed (a : A) (rest : string)
  | Thrown (msg : string)
  | Exhausted.
Arguments Parsed {A} a rest.
Arguments Thrown {A} msg.
Arguments Exhausted {A}.

(** [p] first, then [k] on its value and rest. *)
Definition and_then {A B : Type} (p : parsed A)
    (k : A -> string -> parsed B) : parsed B :=
  match p with
  | Parsed a rest => k a rest
  | Thrown msg => Thrown msg
  | Exhausted => Exhausted
  end.

Definition is_whitespace (c : ascii) : bool :=
  Ascii.eqb c " " || Ascii.eqb c "010" || Ascii.eqb c "013"
  || Ascii.eqb c "009".

(** [std::isdigit]. *)
Definition isdigit (c : ascii) : bool :=
  (48 <=? nat_of_ascii c)%nat && (nat_of_ascii c <=? 57)%nat.

Fixpoint skip_whitespace (rest : string) : string :=
  match rest with
  | String c rest' => if is_whitespace c then skip_whitespace rest' else rest
  | EmptyString => rest
  end.

Definition peek (rest : string) : ascii :=
  match rest with
  | EmptyString => "000"
  | String c _ => c
  end.

Definition consume (rest : string) : parsed ascii :=
  match rest with
  | EmptyString => Thrown "unexpected end of input"
  | String c rest' => Parsed c rest'
  end.

Section FromJson.

(** [std::stod] belongs to the C++ library, not to this repository: it is
    a parameter, [None] standing for the exception it throws. *)
Variable stod : string -> option float.

Definition as_bool (v : JsonValue) (fallback : bool) : bool :=
  match v with
  | JBool b => b
  | JNumber x => negb (Qeq_bool x 0)
  | JString text => String.eqb text "true" || String.eqb text "1"
  | _ => fallback
  end.

Definition as_number (v : JsonValue) (fallback : float) : float :=
  match v with
  | JNumber x => x
  | JBool b => if b then 1 else 0
  | JString text =>
      match stod text with
      | Some x => x
      | None => fallback
      end
  | _ => fallback
  end.

Definition as_string (v : JsonValue) : result string :=
  match v with
  | JString s => Ok s
  | _ => Err "expected JSON string"
  end.

Definition as_array (v : JsonValue) : result (list JsonValue) :=
  match v with
  | JArray a => Ok a
  | _ => Err "expected JSON array"
  end.

Definition as_object (v : JsonValue) : result (gmap string JsonValue) :=
  match v with
  | JObject o => Ok o
  | _ => Err "expected JSON object"
  end.

(** *** [JsonParser], continued *)

(** [result.push_back(c)]. *)
Definition push_back (s : string) (c : ascii) : string :=
  s ++ String c EmptyString.

(** The loop of [parse_string], entered after the opening quote. *)
Fixpoint parse_string_loop (result0 : string) (rest : string)
    : parsed string :=
  match rest with
  | EmptyString => Thrown "unterminated string"
  | String c rest' =>
      if Ascii.eqb c "034" then Parsed result0 rest'
      else if Ascii.eqb c "\" then
        match rest' with
        | EmptyString => Thrown "unexpected end of input"
        | String next rest'' =>
            if Ascii.eqb next "034"
            then parse_string_loop (push_back result0 "034") rest''
            else if Ascii.eqb next "\"
            then parse_string_loop (push_back result0 "\") rest''
            else if Ascii.eqb next "/"
            then parse_string_loop (push_back result0 "/") rest''
            else if Ascii.eqb next "b"
            then parse_string_loop (push_back result0 "008") rest''
            else if Ascii.eqb next "f"
            then parse_string_loop (push_back result0 "012") rest''
            else if Ascii.eqb next "n"
            then parse_string_loop (push_back result0 "010") rest''
            else if Ascii.eqb next "r"
            then parse_string_loop (push_back result0 "013") rest''
            else if Ascii.eqb next "t"
            then parse_string_loop (push_back result0 "009") rest''
            else Thrown "unsupported escape sequence"
        end
      else parse_string_loop (push_back result0 c) rest'
  end.

Definition parse_string (rest : string) : parsed string :=
  and_then (consume rest) (fun c rest' =>
    if negb (Ascii.eqb c "034") then Thrown "expected string"
    else parse_string_loop EmptyString rest').

(** [while (std::isdigit(peek())) number.push_back(consume());]. *)
Fixpoint take_digits (number : string) (rest : string) : string * string :=
  match rest with
  | String c rest' =>
      if isdigit c then take_digits (push_back number c) rest'
      else (number, rest)
  | EmptyString => (number, rest)
  end.

(** [if (peek() == c1 || peek() == c2) number.push_back(consume());]. *)
Definition take_if (accepted : ascii -> bool) (number : string)
    (rest : string) : string * string :=
  match rest with
  | String c rest' =>
      if accepted c then (push_back number c, rest') else (number, rest)
  | EmptyString => (number, rest)
  end.

Definition parse_number (rest : string) : parsed JsonValue :=
  let '(number, rest) := take_if (Ascii.eqb "-") EmptyString rest in
  let '(number, rest) := take_digits number rest in
  let '(number, rest) :=
    if Ascii.eqb (peek rest) "."
    then let '(number, rest) := take_if (Ascii.eqb ".") number rest in
         take_digits number rest
    else (number, rest) in
  let '(number, rest) :=
    if Ascii.eqb (peek rest) "e" || Ascii.eqb (peek rest) "E"
    then let '(number, rest) :=
           take_if (fun c => Ascii.eqb c "e" || Ascii.eqb c "E") number rest in
         let '(number, rest) :=
           take_if (fun c => Ascii.eqb c "+" || Ascii.eqb c "-") number rest in
         take_digits number rest
    else (number, rest) in
  match stod number with
  | Some x => Parsed (JNumber x) rest
  | None => Thrown "invalid numeric literal"
  end.

(** [parse_value], [parse_object] and [parse_array] call each other; the
    two [while (true)] loops are [parse_object_loop] and
    [parse_array_loop], entered at the top of the loop body.  [fuel] bounds
    the number of nested calls and loop rounds; [Exhausted] is the answer
    when it runs out. *)
Fixpoint parse_value (fuel : nat) (rest : string) : parsed JsonValue :=
  match fuel with
  | O => Exhausted
  | S fuel' =>
      let rest := skip_whitespace rest in
      let c := peek rest in
      if Ascii.eqb c "{" then parse_object fuel' rest
      else if Ascii.eqb c "[" then parse_array fuel' rest
      else if Ascii.eqb c "034" then
        and_then (parse_string rest) (fun s rest' => Parsed (JString s) rest')
      else if Ascii.eqb c "-" || isdigit c then parse_number rest
      else if String.eqb (substring 0 4 rest) "true"
      then Parsed (JBool true) (substring 4 (String.length rest - 4) rest)
      else if String.eqb (substring 0 5 rest) "false"
      then Parsed (JBool false) (substring 5 (String.length rest - 5) rest)
      else if String.eqb (substring 0 4 rest) "null"
      then Parsed JNull (substring 4 (String.length rest - 4) rest)
      else Thrown "unexpected token in JSON"
  end

with parse_object (fuel : nat) (rest : string) : parsed JsonValue :=
  match fuel with
  | O => Exhausted
  | S fuel' =>
      and_then (consume rest) (fun _ rest =>
        let rest := skip_whitespace rest in
        if Ascii.eqb (peek rest) "}" then
          and_then (consume rest) (fun _ rest => Parsed (JObject ∅) rest)
        else parse_object_loop fuel' ∅ rest)
  end

with parse_object_loop (fuel : nat) (object : gmap string JsonValue)
    (rest : string) : parsed JsonValue :=
  match fuel with
  | O => Exhausted
  | S fuel' =>
      let rest := skip_whitespace rest in
      if negb (Ascii.eqb (peek rest) "034")
      then Thrown "expected string key in object"
      else
        and_then (parse_string rest) (fun key rest =>
          let rest := skip_whitespace rest in
          and_then (consume rest) (fun colon rest =>
            if negb (Ascii.eqb colon ":") then Thrown "expected ':' after key"
            else
              let rest := skip_whitespace rest in
              and_then (parse_value fuel' rest) (fun value0 rest =>
                let object := emplace key value0 object in
                let rest := skip_whitespace rest in
                and_then (consume rest) (fun separator rest =>
                  if Ascii.eqb separator "}" then Parsed (JObject object) rest
                  else if negb (Ascii.eqb separator ",")
                  then Thrown "expected ',' or '}' in object"
                  else parse_object_loop fuel' object rest))))
  end

with parse_array (fuel : nat) (rest : string) : parsed JsonValue :=
  match fuel with
  | O => Exhausted
  | S fuel' =>
      and_then (consume rest) (fun _ rest =>
        let rest := skip_whitespace rest in
        if Ascii.eqb (peek rest) "]" then
          and_then (consume rest) (fun _ rest => Parsed (JArray []) rest)
        else parse_array_loop fuel' [] rest)
  end

with parse_array_loop (fuel : nat) (array : list JsonValue) (rest : string)
    : parsed JsonValue :=
  match fuel with
  | O => Exhausted
  | S fuel' =>
      and_then (parse_value fuel' rest) (fun value0 rest =>
        let array := (array ++ [value0])%list in
        let rest := skip_whitespace rest in
        and_then (consume rest) (fun separator rest =>
          if Ascii.eqb separator "]" then Parsed (JArray array) rest
          else if negb (Ascii.eqb separator ",")
          then Thrown "expected ',' or ']' in array"
          else parse_array_loop fuel' array (skip_whitespace rest)))
  end.

(** [JsonParser::parse]: [None] when the fuel does not reach. *)
Definition parse (fuel : nat) (text_ : string) : option (result JsonValue) :=
  match parse_value fuel (skip_whitespace text_) with
  | Parsed value0 rest =>
      match skip_whitespace rest with
      | EmptyString => Some (Ok value0)
      | _ => Some (Err "unexpected characters after JSON document")
      end
  | Thrown msg => Some (Err msg)
  | Exhausted => None
  end.

(** *** [InputMappingSpec::FromJson] *)

(** The body of [for (const JsonValue& binding_value : binding_array)]. *)
Definition binding_from_json (binding_value : JsonValue)
    : result BindingDescriptor :=
  binding_object ← as_object binding_value;
  device1 ← match binding_object !! "device" with
            | Some v => text ← as_string v; Ok (parse_device_kind text)
            | None => Ok Keyboard
            end;
  kind1 ← match binding_object !! "kind" with
          | Some v => text ← as_string v; Ok (parse_binding_kind text)
          | None => Ok Button
          end;
  control1 ← match binding_object !! "control" with
             | Some v => as_string v
             | None => Err "binding missing 'control'"
             end;
  let scale1 := match binding_object !! "scale" with
                | Some v => as_number v 1
                | None => 1
                end in
  let deadzone1 := match binding_object !! "deadzone" with
                   | Some v => as_number v (1 # 10)
                   | None => 1 # 10
                   end in
  let toggle1 := match binding_object !! "toggle" with
                 | Some v => as_bool v false
                 | None => false
                 end in
  interpretation1 ← match binding_object !! "interpretation" with
                    | Some v => text ← as_string v; Ok (parse_interpretation text)
                    | None => Ok Analog
                    end;
  Ok {| device := device1; kind := kind1; control := control1;
        scale := scale1; deadzone := deadzone1; toggle := toggle1;
        interpretation := interpretation1 |}.

(** A loop that appends one parsed entry per element and lets the first
    exception through. *)
Fixpoint for_each {A B : Type} (f : A -> result B) (l : list A)
    : result (list B) :=
  match l with
  | [] => Ok []
  | x :: l' => y ← f x; ys ← for_each f l'; Ok (y :: ys)
  end.

(** The body of [for (const JsonValue& value : actions_array)]. *)
Definition action_from_json (value0 : JsonValue) : result ActionBindingSpec :=
  action_object ← as_object value0;
  id1 ← match action_object !! "id" with
        | Some v => as_string v
        | None =>
            match action_object !! "action" with
            | Some v => as_string v
            | None => Err "action entry missing 'id'"
            end
        end;
  let smoothing1 := match action_object !! "smoothing" with
                    | Some v => as_number v 0
                    | None => 0
                    end in
  let threshold1 := match action_object !! "analog_threshold" with
                    | Some v => as_number v (2 # 10)
                    | None => 2 # 10
                    end in
  binding_array ← match action_object !! "bindings" with
                  | Some v => as_array v
                  | None => Err "action entry missing 'bindings'"
                  end;
  bindings1 ← for_each binding_from_json binding_array;
  Ok {| action_id := id1; bindings := bindings1;
        smoothing_window := smoothing1; analog_threshold := threshold1 |}.

(** [InputMappingSpec::FromJson] from the parsed [root] on: the statements
    after [parser.parse()]. *)
Definition FromJson_root (root : JsonValue) : result InputMappingSpec :=
  object ← as_object root;
  actions_array ← match object !! "actions" with
                  | Some v => as_array v
                  | None => Err "input mapping JSON missing 'actions' array"
                  end;
  actions1 ← for_each action_from_json actions_array;
  Ok {| actions := actions1 |}.

(** [InputMappingSpec::FromJson]: read the text, then build the spec. *)
Definition FromJson (fuel : nat) (json_text : string)
    : option (result InputMappingSpec) :=
  match parse fuel json_text with
  | Some (Ok root) => Some (FromJson_root root)
  | Some (Err msg) => Some (Err msg)
  | None => None
  end.

End FromJson.


(** ** Frames, calls and sample data *)

(** Several frames on one action, in order: the states emitted and the
    action as the last frame leaves it. *)
Fixpoint run_frames (action : RuntimeAction) (frames : list RawInputState)
    : list ActionState * RuntimeAction :=
  match frames with
  | [] => ([], action)
  | state :: frames' =>
      let '(s, action1) := compute_state action state in
      let '(ss, action2) := run_frames action1 frames' in
      (s :: ss, action2)
  end.

(** A snapshot with only keyboard keys. *)
Definition keys_snapshot (l : list (string * ButtonState)) (dt : float)
    : RawInputState :=
  {| keyboard := {| keys := list_to_map l |};
     mouse := {| mouse_buttons := ∅; position_x := 0; position_y := 0;
                 delta_x := 0; delta_y := 0; wheel_delta := 0 |};
     gamepad := {| gamepad_buttons := ∅; axes := ∅; previous_axes := ∅ |};
     delta_time := dt |}.

(** A snapshot with only gamepad axes. *)
Definition axes_snapshot (l : list (string * float)) (dt : float)
    : RawInputState :=
  {| keyboard := {| keys := ∅ |};
     mouse := {| mouse_buttons := ∅; position_x := 0; position_y := 0;
                 delta_x := 0; delta_y := 0; wheel_delta := 0 |};
     gamepad := {| gamepad_buttons := ∅; axes := list_to_map l;
                   previous_axes := ∅ |};
     delta_time := dt |}.

(** The three button readings with an edge or a hold. *)
Definition went_down : ButtonState := {| pressed := true; was_pressed := false |}.
Definition held_down : ButtonState := {| pressed := true; was_pressed := true |}.
Definition went_up : ButtonState := {| pressed := false; was_pressed := true |}.

Definition key_button (key : string) (s : float) : BindingDescriptor :=
  {| device := Keyboard; kind := Button; control := key; scale := s;
     deadzone := 1 # 10; toggle := false; interpretation := Analog |}.

Definition key_toggle (key : string) : BindingDescriptor :=
  {| device := Keyboard; kind := Button; control := key; scale := 1;
     deadzone := 1 # 10; toggle := true; interpretation := Analog |}.

Definition digital_axis (axis : string) : BindingDescriptor :=
  {| device := Gamepad; kind := Axis; control := axis; scale := 1;
     deadzone := 1 # 4; toggle := false; interpretation := Digital |}.

(** An action as [load] creates it. *)
Definition fresh_action (name : string) (bs : list BindingDescriptor)
    (smoothing threshold : float) : RuntimeAction :=
  runtime_of {| action_id := name; bindings := bs;
                smoothing_window := smoothing;
                analog_threshold := threshold |}.

(** Move left with [KeyA], right with [KeyD]. *)
Definition move_action : RuntimeAction :=
  fresh_action "move" [key_button "KeyA" (- (1)); key_button "KeyD" 1]
               0 (2 # 10).

(** One toggle key, no smoothing. *)
Definition crouch_action : RuntimeAction :=
  fresh_action "crouch" [key_toggle "KeyC"] 0 (2 # 10).

(** One digital stick axis. *)
Definition strafe_action : RuntimeAction :=
  fresh_action "strafe" [digital_axis "left_x"] 0 (2 # 10).

(** One key, smoothed over one second. *)
Definition throttle_action : RuntimeAction :=
  fresh_action "throttle" [key_button "KeyW" 1] 1 (2 # 10).

(** [KeyA] goes down in the frame in which [KeyD] comes up. *)
Definition opposite_edges : RawInputState :=
  keys_snapshot [("KeyA", went_down); ("KeyD", went_up)] (1 # 60).

(** [KeyC] goes down, is held, comes up. *)
Definition toggle_key_down : RawInputState :=
  keys_snapshot [("KeyC", went_down)] (1 # 60).
Definition toggle_key_held : RawInputState :=
  keys_snapshot [("KeyC", held_down)] (1 # 60).
Definition toggle_key_up : RawInputState :=
  keys_snapshot [("KeyC", went_up)] (1 # 60).

(** Nothing is touched. *)
Definition idle_frame : RawInputState := keys_snapshot [] (1 # 60).




(** The range of an action value, and the action tables whose remembered
    values are all in it. *)
Definition in_unit_range (x : float) : Prop := - (1) <= x <= 1.


(** An action whose only binding is the toggle button [d], of scale 1, and
    which does no smoothing. *)
Definition single_toggle (d : BindingDescriptor) (action : RuntimeAction)
    : Prop :=
  kind d = Button /\ toggle d = true /\ scale d = 1
  /\ runtime_bindings action = [Build_RuntimeBinding d]
  /\ smoothing_window (spec action) = 0.

(** A frame in which the button of [d] has no press edge: what such a frame
    emits when the action rests at [v]. *)
Definition rests_at (d : BindingDescriptor) (v : float)
    (state : RawInputState) (s : ActionState) : Prop :=
  value s = v /\ triggered s = false
  /\ released s = just_released (button_of d state).

(** The stick reads 0.3 on [left_x]. *)
Definition stick_right : RawInputState :=
  axes_snapshot [("left_x", 3 # 10)] (1 # 60).

(** [KeyW] is held; the frame lasted [dt] seconds. *)
Definition throttle_held (dt : float) : RawInputState :=
  keys_snapshot [("KeyW", held_down)] dt.

(** A table of three actions, as [load] builds it. *)
Definition sample_spec : InputMappingSpec :=
  {| actions := [spec move_action; spec crouch_action;
                 spec throttle_action] |}.

Definition sample_table : gmap string RuntimeAction :=
  load sample_spec ∅.

(** A spec that lists the id ["move"] twice, with different bindings. *)
Definition duplicate_spec : InputMappingSpec :=
  {| actions :=
       [spec move_action;
        {| action_id := "move"; bindings := [key_button "KeyJ" 1];
           smoothing_window := 1; analog_threshold := 1 # 2 |};
        spec crouch_action] |}.

(** The first action of a list that carries the id [name]. *)
Definition first_with_id (name : string) (l : list ActionBindingSpec)
    : option ActionBindingSpec :=
  List.find (fun action => String.eqb (action_id action) name) l.





(** [std::stod] on the numerals the samples use; it throws on the rest. *)
Definition sample_stod (text : string) : option float :=
  if String.eqb text "1" || String.eqb text "1.0" then Some 1
  else if String.eqb text "-1.0" then Some (- (1))
  else if String.eqb text "0.5" then Some (1 # 2)
  else if String.eqb text "0.25" then Some (1 # 4)
  else if String.eqb text "0.08" then Some (8 # 100)
  else if String.eqb text "0.15" then Some (15 # 100)
  else None.

(** Sample texts are written with ['] for the JSON double quote. *)
Fixpoint quotes (text : string) : string :=
  match text with
  | EmptyString => EmptyString
  | String c text' =>
      String (if Ascii.eqb c "'" then "034"%char else c) (quotes text')
  end.




(** A binding whose three enum fields hold text that is not known. *)
Definition odd_binding : gmap string JsonValue :=
  {[ "device" := JString "joystick"; "kind" := JString "slider";
     "control" := JString "KeyZ"; "interpretation" := JString "fuzzy" ]}.

Definition odd_document : JsonValue :=
  JObject {[ "actions" :=
    JArray [JObject {[ "id" := JString "zoom";
                       "bindings" := JArray [JObject odd_binding] ]}] ]}.





(** A good entry followed by a bad one. *)
Definition good_entry : gmap string JsonValue :=
  {[ "id" := JString "jump";
     "bindings" := JArray [JObject {[ "control" := JString "Space" ]}] ]}.

Definition broken_object (bad : gmap string JsonValue)
    : gmap string JsonValue :=
  {[ "actions" := JArray [JObject good_entry; JObject bad] ]}.

Definition broken_document (bad : gmap string JsonValue) : JsonValue :=
  JObject (broken_object bad).

Definition odd_text : string :=
  quotes "{'actions': [{'id': 'zoom', 'bindings': [
    {'device': 'joystick', 'kind': 'slider', 'control': 'KeyZ',
     'interpretation': 'fuzzy'}]}]}".

Definition nameless_text : string :=
  quotes "{'actions': [
    {'id': 'jump', 'bindings': [{'control': 'Space'}]},
    {'bindings': []}]}".

Definition unbound_text : string :=
  quotes "{'actions': [
    {'id': 'jump', 'bindings': [{'control': 'Space'}]},
    {'id': 'dash'}]}".

Definition uncontrolled_text : string :=
  quotes "{'actions': [
    {'id': 'jump', 'bindings': [{'control': 'Space'}]},
    {'id': 'dash', 'bindings': [{'device': 'mouse'}]}]}".

(** Two actions of the manifest of the demo level. *)
Definition manifest_text : string :=
  quotes "
{
  'actions': [
    {
      'id': 'move_horizontal',
      'bindings': [
        {'device': 'keyboard', 'control': 'KeyA', 'scale': -1.0},
        {'device': 'keyboard', 'control': 'KeyD', 'scale': 1.0},
        {'device': 'gamepad', 'kind': 'axis', 'control': 'left_x', 'deadzone': 0.25},
        {'device': 'mouse', 'kind': 'axis', 'control': 'x', 'deadzone': 0.25, 'interpretation': 'digital'}
      ],
      'smoothing': 0.08,
      'analog_threshold': 0.15
    },
    {
      'id': 'dash',
      'bindings': [
        {'device': 'keyboard', 'control': 'Space'},
        {'device': 'gamepad', 'control': 'south'},
        {'device': 'mouse', 'control': 'Button4', 'toggle': false}
      ]
    }
  ]
}
".

Definition manifest_spec : InputMappingSpec :=
  {| actions :=
       [{| action_id := "move_horizontal";
           bindings :=
             [{| device := Keyboard; kind := Button; control := "KeyA";
                 scale := - (1); deadzone := 1 # 10; toggle := false;
                 interpretation := Analog |};
              {| device := Keyboard; kind := Button; control := "KeyD";
                 scale := 1; deadzone := 1 # 10; toggle := false;
                 interpretation := Analog |};
              {| device := Gamepad; kind := Axis; control := "left_x";
                 scale := 1; deadzone := 1 # 4; toggle := false;
                 interpretation := Analog |};
              {| device := Mouse; kind := Axis; control := "x";
                 scale := 1; deadzone := 1 # 4; toggle := false;
                 interpretation := Digital |}];
           smoothing_window := 8 # 100;
           analog_threshold := 15 # 100 |};
        {| action_id := "dash";
           bindings :=
             [{| device := Keyboard; kind := Button; control := "Space";
                 scale := 1; deadzone := 1 # 10; toggle := false;
                 interpretation := Analog |};
              {| device := Gamepad; kind := Button; control := "south";
                 scale := 1; deadzone := 1 # 10; toggle := false;
                 interpretation := Analog |};
              {| device := Mouse; kind := Button; control := "Button4";
                 scale := 1; deadzone := 1 # 10; toggle := false;
                 interpretation := Analog |}];
           smoothing_window := 0;
           analog_threshold := 2 # 10 |}] |}.

(** A reader step that came to an end (value or exception) and left at
    most [bound] characters unread. *)
Definition finishes {A : Type} (p : parsed A) (bound : nat) : Prop :=
  match p with
  | Parsed _ rest => (String.length rest <= bound)%nat
  | Thrown _ => True
  | Exhausted => False
  end.

(** The fuel that is enough to read [text_]. *)
Definition fuel_for (text_ : string) : nat := 3 * String.length text_ + 1.

(** [q] is [p] unless [p] ran out of fuel. *)
Definition extends {A : Type} (p q : parsed A) : Prop :=
  match p with
  | Exhausted => True
  | _ => q = p
  end.

(** [KeyA] and [KeyD] are both held. *)
Definition both_held : RawInputState :=
  keys_snapshot [("KeyA", held_down); ("KeyD", held_down)] (1 # 60).

(** ** Kinds of bindings, and bindings at rest *)

(** A button binding that is not a toggle, one that is, and an axis or
    pointer binding read as analog. *)
Definition plain_button (rb : RuntimeBinding) : Prop :=
  kind (descriptor rb) = Button /\ toggle (descriptor rb) = false.

Definition toggle_button (rb : RuntimeBinding) : Prop :=
  kind (descriptor rb) = Button /\ toggle (descriptor rb) = true.

Definition analog_axis (rb : RuntimeBinding) : Prop :=
  kind (descriptor rb) <> Button /\ interpretation (descriptor rb) = Analog.

(** The scales of the bindings whose button is down, added up. *)
Definition pressed_scales (state : RawInputState) (rbs : list RuntimeBinding)
    : float :=
  fold_right
    (fun rb total =>
       (if pressed (button_of (descriptor rb) state)
        then scale (descriptor rb) else 0) + total)
    0 rbs.

(** A binding that reads nothing: its button is up and was up, or its axis
    reading is within the deadzone. *)
Definition at_rest (state : RawInputState) (rb : RuntimeBinding) : Prop :=
  match kind (descriptor rb) with
  | Button =>
      pressed (button_of (descriptor rb) state) = false
      /\ was_pressed (button_of (descriptor rb) state) = false
  | _ => Qabs (extract_axis_value (descriptor rb) state) <= deadzone (descriptor rb)
  end.

(** The control of a binding is not in the snapshot: no such key, button
    or axis, or a name the mouse has no axis for. *)
Definition control_absent (state : RawInputState) (d : BindingDescriptor)
    : Prop :=
  match kind d, device d with
  | Button, Keyboard => keys (keyboard state) !! control d = None
  | Button, Mouse => mouse_buttons (mouse state) !! control d = None
  | Button, Gamepad => gamepad_buttons (gamepad state) !! control d = None
  | _, Keyboard => keys (keyboard state) !! control d = None
  | _, Mouse =>
      control d ∉ ["x"; "delta_x"; "y"; "delta_y"; "wheel"; "scroll";
                   "position_x"; "position_y"]
  | _, Gamepad => axes (gamepad state) !! control d = None
  end.

(** The number of bindings whose button has a press edge. *)
Definition press_count (state : RawInputState) (rbs : list RuntimeBinding)
    : nat :=
  length (filter (fun rb => just_pressed (button_of (descriptor rb) state) = true)
                 rbs).

(** Some binding's button is down, has a press edge, has a release
    edge. *)
Definition some_pressed (state : RawInputState) (rbs : list RuntimeBinding)
    : bool :=
  existsb (fun rb => pressed (button_of (descriptor rb) state)) rbs.

Definition some_just_pressed (state : RawInputState)
    (rbs : list RuntimeBinding) : bool :=
  existsb (fun rb => just_pressed (button_of (descriptor rb) state)) rbs.

Definition some_just_released (state : RawInputState)
    (rbs : list RuntimeBinding) : bool :=
  existsb (fun rb => just_released (button_of (descriptor rb) state)) rbs.

(** The reading of a button that is held as it was at the end of the
    frame before: its [pressed] flag, with no edge. *)
Definition held_as (b : ButtonState) : ButtonState :=
  {| pressed := pressed b; was_pressed := pressed b |}.

(** [KeyD] goes down, then is held. *)
Definition right_down : RawInputState :=
  keys_snapshot [("KeyD", went_down)] (1 # 60).
Definition right_held : RawInputState :=
  keys_snapshot [("KeyD", held_down)] (1 # 60).

(** The locals while nothing has been read: no value, no flag, toggle
    off. *)
Definition quiet (L : Locals) : Prop :=
  acc_value L == 0 /\ any_pressed L = false /\ any_triggered L = false
  /\ any_released L = false /\ toggle_value L = false
  /\ toggle_turned_on L = false /\ toggle_turned_off L = false.

(** An action with a button, a toggle, an analog and a digital axis. *)
Definition mixed_action : RuntimeAction :=
  fresh_action "mixed"
    [key_button "KeyA" (- (1)); key_toggle "KeyC";
     {| device := Gamepad; kind := Axis; control := "left_x"; scale := 1;
        deadzone := 1 # 4; toggle := false; interpretation := Analog |};
     {| device := Mouse; kind := Pointer; control := "tilt"; scale := 2;
        deadzone := 1 # 10; toggle := false; interpretation := Digital |}]
    (8 # 100) (15 # 100).

(** The neutral action state, up to the value being zero. *)
Definition neutral (s : ActionState) : Prop :=
  value s == 0 /\ active s = false /\ triggered s = false
  /\ released s = false.

(** Two toggle keys on one action, the second with scale 1/2. *)
Definition half_toggle (key : string) : BindingDescriptor :=
  {| device := Keyboard; kind := Button; control := key; scale := 1 # 2;
     deadzone := 1 # 10; toggle := true; interpretation := Analog |}.

Definition two_toggles_action : RuntimeAction :=
  fresh_action "stance" [key_toggle "KeyC"; half_toggle "KeyV"] 0 (2 # 10).

(** Both toggle keys go down in the same frame; only the second does. *)
Definition both_toggles_down : RawInputState :=
  keys_snapshot [("KeyC", went_down); ("KeyV", went_down)] (1 # 60).
Definition second_toggle_down : RawInputState :=
  keys_snapshot [("KeyV", went_down)] (1 # 60).

(** A descriptor that is not a toggle button. *)
Definition no_toggle (d : BindingDescriptor) : Prop :=
  ~ (kind d = Button /\ toggle d = true).

(** One analog stick axis, with the default threshold. *)
Definition analog_stick : BindingDescriptor :=
  {| device := Gamepad; kind := Axis; control := "left_x"; scale := 1;
     deadzone := 1 # 4; toggle := false; interpretation := Analog |}.

Definition steer_action : RuntimeAction :=
  fresh_action "steer" [analog_stick] 0 (2 # 10).

Definition stick_at (x : float) : RawInputState :=
  axes_snapshot [("left_x", x)] (1 # 60).

(** The sample table after the crouch toggle has been switched on. *)
Definition crouched_table : gmap string RuntimeAction :=
  snd (evaluate_action "crouch" toggle_key_down sample_table).
(** * Properties *)

(** ** Comparisons as propositions *)

Lemma fle_true (a b : float) : fle a b = true <-> a <= b.
Proof. apply Qle_bool_iff. Qed.

Lemma fle_false (a b : float) : fle a b = false <-> b < a.
Proof.
  unfold fle. split; intros H.
  - apply Qnot_le_lt. intros Hle. apply Qle_bool_iff in Hle. congruence.
  - destruct (Qle_bool a b) eqn:E; [|reflexivity].
    apply Qle_bool_iff in E. lra.
Qed.

Lemma flt_true (a b : float) : flt a b = true <-> a < b.
Proof. unfold flt. rewrite negb_true_iff. apply (fle_false b a). Qed.

Lemma flt_false (a b : float) : flt a b = false <-> b <= a.
Proof. unfold flt. rewrite negb_false_iff. apply (fle_true b a). Qed.

(** Turns every boolean comparison among the hypotheses into its
    proposition. *)
Ltac comparisons :=
  repeat match goal with
  | H : fle _ _ = true |- _ => apply fle_true in H
  | H : fle _ _ = false |- _ => apply fle_false in H
  | H : flt _ _ = true |- _ => apply flt_true in H
  | H : flt _ _ = false |- _ => apply flt_false in H
  end.


Lemma clamp_id (v lo hi : float) :
  lo <= v <= hi -> clamp v lo hi = v.
Proof.
  intros [H1 H2]. unfold clamp.
  destruct (flt v lo) eqn:E1; comparisons; [lra|].
  destruct (flt hi v) eqn:E2; comparisons; [lra|reflexivity].
Qed.

(** ** Reading buttons *)

Lemma extract_button_pressed_button_of d state :
  extract_button_pressed d state = pressed (button_of d state).
Proof. unfold extract_button_pressed, button_of. by destruct (device d). Qed.

Lemma extract_button_triggered_button_of d state :
  extract_button_triggered d state = just_pressed (button_of d state).
Proof. unfold extract_button_triggered, button_of. by destruct (device d). Qed.

Lemma extract_button_released_button_of d state :
  extract_button_released d state = just_released (button_of d state).
Proof. unfold extract_button_released, button_of. by destruct (device d). Qed.

Lemma extract_toggle_transition_button_of d state :
  toggle d = true ->
  extract_toggle_transition d state = just_pressed (button_of d state).
Proof.
  intros Ht. unfold extract_toggle_transition, button_of. rewrite Ht.
  by destruct (device d).
Qed.

(** A button cannot go down and up in the same reading. *)
Lemma just_pressed_not_released b :
  just_pressed b = true -> just_released b = false.
Proof. unfold just_pressed, just_released. by destruct (pressed b), (was_pressed b). Qed.

(** ** The flags only ever go up inside the loop *)

Lemma binding_step_any_pressed action state L rb :
  any_pressed L = true -> any_pressed (binding_step action state L rb) = true.
Proof.
  intros H. unfold binding_step.
  repeat case_match; simpl; rewrite ?H; reflexivity.
Qed.

Lemma binding_step_any_triggered action state L rb :
  any_triggered L = true ->
  any_triggered (binding_step action state L rb) = true.
Proof.
  intros H. unfold binding_step.
  repeat case_match; simpl; rewrite ?H; reflexivity.
Qed.

Lemma binding_step_any_released action state L rb :
  any_released L = true ->
  any_released (binding_step action state L rb) = true.
Proof.
  intros H. unfold binding_step.
  repeat case_match; simpl; rewrite ?H; reflexivity.
Qed.

Lemma fold_any_pressed action state rbs L :
  any_pressed L = true ->
  any_pressed (fold_left (binding_step action state) rbs L) = true.
Proof.
  revert L. induction rbs as [|rb rbs IH]; intros L H; simpl; [done|].
  apply IH. by apply binding_step_any_pressed.
Qed.

Lemma fold_any_triggered action state rbs L :
  any_triggered L = true ->
  any_triggered (fold_left (binding_step action state) rbs L) = true.
Proof.
  revert L. induction rbs as [|rb rbs IH]; intros L H; simpl; [done|].
  apply IH. by apply binding_step_any_triggered.
Qed.

Lemma fold_any_released action state rbs L :
  any_released L = true ->
  any_released (fold_left (binding_step action state) rbs L) = true.
Proof.
  revert L. induction rbs as [|rb rbs IH]; intros L H; simpl; [done|].
  apply IH. by apply binding_step_any_released.
Qed.

(** What a button binding, toggle or not, does to the three flags. *)
Lemma binding_step_button_flags action state L rb :
  kind (descriptor rb) = Button ->
  let L' := binding_step action state L rb in
  any_pressed L' = any_pressed L || pressed (button_of (descriptor rb) state)
  /\ any_triggered L'
     = any_triggered L || just_pressed (button_of (descriptor rb) state)
  /\ any_released L'
     = any_released L || just_released (button_of (descriptor rb) state).
Proof.
  intros Hk. unfold binding_step. rewrite Hk.
  rewrite extract_button_pressed_button_of,
    extract_button_triggered_button_of, extract_button_released_button_of.
  repeat case_match; simpl; auto.
Qed.

Lemma apply_toggle_any_pressed L :
  any_pressed L = true -> any_pressed (apply_toggle L) = true.
Proof. intros H. unfold apply_toggle. repeat case_match; simpl; auto. Qed.

Lemma apply_toggle_any_triggered L :
  any_triggered L = true -> any_triggered (apply_toggle L) = true.
Proof. intros H. unfold apply_toggle. repeat case_match; simpl; auto. Qed.

Lemma apply_toggle_any_released L :
  any_released L = true -> any_released (apply_toggle L) = true.
Proof. intros H. unfold apply_toggle. repeat case_match; simpl; auto. Qed.

(** The flags of a button binding that sits anywhere in the list reach the
    end of the loop and of the toggle block. *)
Lemma button_binding_flags_reach_end action state rb :
  rb ∈ runtime_bindings action ->
  kind (descriptor rb) = Button ->
  let L := apply_toggle (fold_bindings action state) in
  (pressed (button_of (descriptor rb) state) = true -> any_pressed L = true)
  /\ (just_pressed (button_of (descriptor rb) state) = true ->
      any_triggered L = true)
  /\ (just_released (button_of (descriptor rb) state) = true ->
      any_released L = true).
Proof.
  intros Hin Hk. cbv zeta. unfold fold_bindings.
  generalize (init_locals action) as L0.
  induction (runtime_bindings action) as [|rb' rbs IH]; intros L0.
  - by apply elem_of_nil in Hin.
  - apply elem_of_cons in Hin as [->|Hin].
    + simpl.
      destruct (binding_step_button_flags action state L0 rb' Hk)
        as (Hp & Ht & Hr).
      repeat split; intros H.
      * apply apply_toggle_any_pressed, fold_any_pressed.
        rewrite Hp, H. apply orb_true_r.
      * apply apply_toggle_any_triggered, fold_any_triggered.
        rewrite Ht, H. apply orb_true_r.
      * apply apply_toggle_any_released, fold_any_released.
        rewrite Hr, H. apply orb_true_r.
    + simpl. apply IH, Hin.
Qed.

(** ** Trigger and release in one frame *)




(** ** A held toggle button *)

(** C8: a toggle button binding feeds its raw reading into the flags like
    any button binding.  While its button is held the action is active,
    whatever [toggle_state] is; a press edge of the button sets [triggered]
    and a release edge sets [released]. *)
Theorem held_toggle_button_is_active action state rb :
  rb ∈ runtime_bindings action ->
  kind (descriptor rb) = Button ->
  toggle (descriptor rb) = true ->
  (extract_button_pressed (descriptor rb) state = true ->
   active (fst (compute_state action state)) = true)
  /\ (extract_button_triggered (descriptor rb) state = true ->
      triggered (fst (compute_state action state)) = true)
  /\ (extract_button_released (descriptor rb) state = true ->
      released (fst (compute_state action state)) = true).
Proof.
  intros Hin Hk _.
  rewrite extract_button_pressed_button_of,
    extract_button_triggered_button_of, extract_button_released_button_of.
  destruct (button_binding_flags_reach_end action state rb Hin Hk)
    as (Hp & Ht & Hr).
  unfold compute_state; simpl.
  repeat split; intros H.
  - by rewrite (Hp H).
  - by rewrite (Ht H).
  - by rewrite (Hr H).
Qed.

Lemma held_toggle_button_is_active_witness :
  (Build_RuntimeBinding (key_toggle "KeyC") ∈ runtime_bindings crouch_action
   /\ kind (key_toggle "KeyC") = Button
   /\ toggle (key_toggle "KeyC") = true
   /\ extract_button_pressed (key_toggle "KeyC") toggle_key_held = true
   /\ extract_button_triggered (key_toggle "KeyC") toggle_key_down = true
   /\ extract_button_released (key_toggle "KeyC") toggle_key_up = true)
  /\ active (fst (compute_state crouch_action toggle_key_held)) = true
  /\ triggered (fst (compute_state crouch_action toggle_key_down)) = true
  /\ released (fst (compute_state crouch_action toggle_key_up)) = true.
Proof.
  assert (Hin : Build_RuntimeBinding (key_toggle "KeyC")
                ∈ runtime_bindings crouch_action) by (simpl; left).
  assert (Hp : extract_button_pressed (key_toggle "KeyC") toggle_key_held
               = true) by (vm_compute; reflexivity).
  assert (Ht : extract_button_triggered (key_toggle "KeyC") toggle_key_down
               = true) by (vm_compute; reflexivity).
  assert (Hr : extract_button_released (key_toggle "KeyC") toggle_key_up
               = true) by (vm_compute; reflexivity).
  split; [repeat split; assumption|].
  split; [|split].
  - apply (held_toggle_button_is_active crouch_action toggle_key_held
             (Build_RuntimeBinding (key_toggle "KeyC")) Hin eq_refl eq_refl).
    exact Hp.
  - apply (held_toggle_button_is_active crouch_action toggle_key_down
             (Build_RuntimeBinding (key_toggle "KeyC")) Hin eq_refl eq_refl).
    exact Ht.
  - apply (held_toggle_button_is_active crouch_action toggle_key_up
             (Build_RuntimeBinding (key_toggle "KeyC")) Hin eq_refl eq_refl).
    exact Hr.
Defined.

(** ** The value stays in [[-1, 1]] *)


(** One frame: the emitted value is the new [previous_value], and it is in
    range when the old one was. *)
Lemma compute_state_previous_value action state :
  previous_value (snd (compute_state action state))
  = value (fst (compute_state action state)).
Proof. reflexivity. Qed.










(** ** A single toggle button *)

Lemma single_toggle_compute_state d action state :
  single_toggle d action ->
  single_toggle d (snd (compute_state action state)).
Proof. intros H. exact H. Qed.

Lemma smooth_off action state v :
  smoothing_window (spec action) = 0 -> smooth action state v = v.
Proof. intros Hw. unfold smooth. rewrite Hw. reflexivity. Qed.

(** Unfolds one frame of a single-toggle action down to the reading of its
    button and the comparisons with the threshold. *)
Ltac toggle_frame Hs :=
  destruct Hs as (Hk & Ht & Hsc & Hb & Hw);
  unfold compute_state, fold_bindings;
  rewrite (smooth_off _ _ _ Hw), Hb; cbn [fold_left];
  unfold binding_step; cbn [descriptor]; rewrite Hk, Ht;
  rewrite (extract_toggle_transition_button_of _ _ Ht);
  rewrite extract_button_pressed_button_of,
    extract_button_triggered_button_of, extract_button_released_button_of.

(** The first press: off to on. *)
Lemma toggle_first_flip d action state :
  single_toggle d action ->
  toggle_state action = false ->
  in_unit_range (previous_value action) ->
  just_pressed (button_of d state) = true ->
  let r := compute_state action state in
  toggle_state (snd r) = true /\ previous_value (snd r) = 1
  /\ value (fst r) = 1 /\ triggered (fst r) = true
  /\ released (fst r) = false.
Proof.
  intros Hs Hts Hpv Hjp. cbv zeta. toggle_frame Hs.
  rewrite Hjp, (just_pressed_not_released _ Hjp).
  unfold init_locals, apply_toggle. rewrite Hts. cbn. rewrite Hsc.
  change (clamp (0 + 1) (- (1)) 1) with 1.
  repeat split; try reflexivity.
  destruct (flt 0 (analog_threshold (spec action))) eqn:E0; [|reflexivity].
  apply andb_false_iff.
  destruct (fle (fabs 1) (analog_threshold (spec action) * (1 # 2))) eqn:E1;
    [right|by left].
  apply flt_false. comparisons. change (fabs 1) with 1 in E1.
  apply Qabs_Qle_condition in Hpv. unfold fabs. lra.
Qed.

(** The second press: on to off.  The press edge of the button still sets
    [triggered], and the flip sets [released]. *)
Lemma toggle_second_flip d action state :
  single_toggle d action ->
  toggle_state action = true ->
  previous_value action = 1 ->
  just_pressed (button_of d state) = true ->
  let r := compute_state action state in
  toggle_state (snd r) = false /\ previous_value (snd r) = 0
  /\ value (fst r) = 0 /\ triggered (fst r) = true
  /\ released (fst r) = true.
Proof.
  intros Hs Hts Hpv Hjp. cbv zeta. toggle_frame Hs.
  rewrite Hjp, (just_pressed_not_released _ Hjp).
  unfold init_locals, apply_toggle. rewrite Hts, Hpv. cbn.
  change (clamp 0 (- (1)) 1) with 0.
  repeat split; reflexivity.
Qed.

(** A frame without a press edge leaves the toggle where it is. *)
Lemma toggle_rest_on d action state :
  single_toggle d action ->
  toggle_state action = true ->
  previous_value action = 1 ->
  just_pressed (button_of d state) = false ->
  let r := compute_state action state in
  toggle_state (snd r) = true /\ previous_value (snd r) = 1
  /\ rests_at d 1 state (fst r).
Proof.
  intros Hs Hts Hpv Hjp. cbv zeta. unfold rests_at. toggle_frame Hs.
  rewrite Hjp.
  unfold init_locals, apply_toggle. rewrite Hts, Hpv. cbn. rewrite Hsc.
  change (clamp (0 + 1) (- (1)) 1) with 1.
  change (fabs 1) with 1. change (Z.abs 1 # 1) with 1.
  repeat split; try reflexivity.
  - destruct (flt 0 (analog_threshold (spec action))) eqn:E0; [|reflexivity].
    destruct (fle _ 1) eqn:E1, (flt 1 _) eqn:E2; try reflexivity;
      comparisons; lra.
  - destruct (just_released (button_of d state)); [reflexivity|]. cbn.
    destruct (flt 0 (analog_threshold (spec action))) eqn:E0; [|reflexivity].
    destruct (fle 1 _) eqn:E1, (flt _ 1) eqn:E2; try reflexivity;
      comparisons; lra.
Qed.

Lemma toggle_rest_off d action state :
  single_toggle d action ->
  toggle_state action = false ->
  previous_value action = 0 ->
  just_pressed (button_of d state) = false ->
  let r := compute_state action state in
  toggle_state (snd r) = false /\ previous_value (snd r) = 0
  /\ rests_at d 0 state (fst r).
Proof.
  intros Hs Hts Hpv Hjp. cbv zeta. unfold rests_at. toggle_frame Hs.
  rewrite Hjp.
  unfold init_locals, apply_toggle. rewrite Hts, Hpv. cbn.
  change (clamp 0 (- (1)) 1) with 0.
  change (fabs 0) with 0. change (Z.abs 0 # 1) with 0.
  repeat split; try reflexivity.
  - destruct (flt 0 (analog_threshold (spec action))) eqn:E0; [|reflexivity].
    destruct (fle _ 0) eqn:E1, (flt 0 _) eqn:E2; try reflexivity;
      comparisons; lra.
  - destruct (just_released (button_of d state)); [reflexivity|]. cbn.
    destruct (flt 0 (analog_threshold (spec action))) eqn:E0; [|reflexivity].
    destruct (fle 0 _) eqn:E1, (flt _ 0) eqn:E2; try reflexivity;
      comparisons; lra.
Qed.

(** Any number of frames without a press edge. *)
Lemma toggle_rest_frames d (on : bool) frames : forall action,
  single_toggle d action ->
  toggle_state action = on ->
  previous_value action = (if on then 1 else 0) ->
  Forall (fun state => just_pressed (button_of d state) = false) frames ->
  let r := run_frames action frames in
  single_toggle d (snd r)
  /\ toggle_state (snd r) = on
  /\ previous_value (snd r) = (if on then 1 else 0)
  /\ Forall2 (rests_at d (if on then 1 else 0)) frames (fst r).
Proof.
  induction frames as [|state frames IH]; intros action Hs Hts Hpv Hall;
    cbv zeta.
  - simpl. repeat split; try assumption; try apply Hs. constructor.
  - apply Forall_cons in Hall as [Hjp Hall].
    assert (Hstep : toggle_state (snd (compute_state action state)) = on
                    /\ previous_value (snd (compute_state action state))
                       = (if on then 1 else 0)
                    /\ rests_at d (if on then 1 else 0) state
                         (fst (compute_state action state))).
    { destruct on.
      - exact (toggle_rest_on d action state Hs Hts Hpv Hjp).
      - exact (toggle_rest_off d action state Hs Hts Hpv Hjp). }
    destruct Hstep as (Hts1 & Hpv1 & Hrest).
    pose proof (single_toggle_compute_state d action state Hs) as Hs1.
    cbn [run_frames].
    destruct (compute_state action state) as [s action1]. cbn [fst snd] in *.
    specialize (IH _ Hs1 Hts1 Hpv1 Hall). cbv zeta in IH.
    destruct (run_frames action1 frames) as [ss action2]. cbn [fst snd] in *.
    destruct IH as (H1 & H2 & H3 & H4).
    split; [exact H1|]. split; [exact H2|]. split; [exact H3|].
    by constructor.
Qed.

(** C3, as stated, fails: the press that turns the toggle off sets
    [triggered] again, and the frame in which the key comes up between the
    two presses sets [released]. *)
Lemma toggle_second_press_triggers_again :
  let r1 := compute_state crouch_action toggle_key_down in
  let r2 := compute_state (snd r1) toggle_key_up in
  let r3 := compute_state (snd r2) toggle_key_down in
  toggle_state (snd r1) = true
  /\ toggle_state (snd r2) = true
  /\ toggle_state (snd r3) = false
  /\ released (fst r2) = true
  /\ triggered (fst r3) = true.
Proof. vm_compute. repeat split; reflexivity. Qed.

(** C3, amended: a single toggle button of scale 1 without smoothing,
    starting off with [previous_value] in [[-1, 1]] (as after any
    evaluation since [load]).  The first press edge turns
    [toggle_state] on and the second turns it off; the value is 1 from the
    first press on and 0 from the second press on.  [triggered] is true in
    both press frames and in no frame without a press edge; [released] is
    false in the first press frame, true in the second, and in a frame
    without a press edge it is the release edge of the button. *)
Theorem toggle_pressed_twice d action first between second after :
  single_toggle d action ->
  toggle_state action = false ->
  - (1) <= previous_value action <= 1 ->
  just_pressed (button_of d first) = true ->
  Forall (fun state => just_pressed (button_of d state) = false) between ->
  just_pressed (button_of d second) = true ->
  Forall (fun state => just_pressed (button_of d state) = false) after ->
  let r1 := compute_state action first in
  let r2 := run_frames (snd r1) between in
  let r3 := compute_state (snd r2) second in
  let r4 := run_frames (snd r3) after in
  (toggle_state (snd r1) = true /\ value (fst r1) = 1
   /\ triggered (fst r1) = true /\ released (fst r1) = false)
  /\ (toggle_state (snd r2) = true
      /\ Forall2 (rests_at d 1) between (fst r2))
  /\ (toggle_state (snd r3) = false /\ value (fst r3) = 0
      /\ triggered (fst r3) = true /\ released (fst r3) = true)
  /\ (toggle_state (snd r4) = false
      /\ Forall2 (rests_at d 0) after (fst r4)).
Proof.
  intros Hs Hts Hpv Hp1 Hbetween Hp2 Hafter. cbv zeta.
  destruct (toggle_first_flip d action first Hs Hts Hpv Hp1)
    as (Hts1 & Hpv1 & Hv1 & Ht1 & Hr1).
  pose proof (single_toggle_compute_state d action first Hs) as Hs1.
  destruct (toggle_rest_frames d true between _ Hs1 Hts1 Hpv1 Hbetween)
    as (Hs2 & Hts2 & Hpv2 & Hrest2).
  destruct (toggle_second_flip d _ second Hs2 Hts2 Hpv2 Hp2)
    as (Hts3 & Hpv3 & Hv3 & Ht3 & Hr3).
  pose proof (single_toggle_compute_state d _ second Hs2) as Hs3.
  destruct (toggle_rest_frames d false after _ Hs3 Hts3 Hpv3 Hafter)
    as (Hs4 & Hts4 & Hpv4 & Hrest4).
  repeat split; assumption.
Qed.

Lemma toggle_pressed_twice_witness :
  let d := key_toggle "KeyC" in
  let between := [toggle_key_held; toggle_key_up] in
  let after := [toggle_key_held; toggle_key_up; idle_frame] in
  let r1 := compute_state crouch_action toggle_key_down in
  let r2 := run_frames (snd r1) between in
  let r3 := compute_state (snd r2) toggle_key_down in
  let r4 := run_frames (snd r3) after in
  (single_toggle d crouch_action
   /\ toggle_state crouch_action = false
   /\ - (1) <= previous_value crouch_action <= 1
   /\ just_pressed (button_of d toggle_key_down) = true
   /\ Forall (fun state => just_pressed (button_of d state) = false) between
   /\ Forall (fun state => just_pressed (button_of d state) = false) after)
  /\ (toggle_state (snd r1) = true /\ value (fst r1) = 1
      /\ triggered (fst r1) = true /\ released (fst r1) = false)
  /\ (toggle_state (snd r2) = true
      /\ Forall2 (rests_at d 1) between (fst r2))
  /\ (toggle_state (snd r3) = false /\ value (fst r3) = 0
      /\ triggered (fst r3) = true /\ released (fst r3) = true)
  /\ (toggle_state (snd r4) = false
      /\ Forall2 (rests_at d 0) after (fst r4)).
Proof.
  cbv zeta.
  assert (Hs : single_toggle (key_toggle "KeyC") crouch_action)
    by (repeat split; reflexivity).
  assert (Hp : just_pressed (button_of (key_toggle "KeyC") toggle_key_down)
               = true) by (vm_compute; reflexivity).
  assert (Hb : Forall (fun state =>
                  just_pressed (button_of (key_toggle "KeyC") state) = false)
                 [toggle_key_held; toggle_key_up])
    by (repeat constructor; vm_compute; reflexivity).
  assert (Ha : Forall (fun state =>
                  just_pressed (button_of (key_toggle "KeyC") state) = false)
                 [toggle_key_held; toggle_key_up; idle_frame])
    by (repeat constructor; vm_compute; reflexivity).
  assert (Hv : - (1) <= previous_value crouch_action <= 1)
    by (split; discriminate).
  split; [repeat split; try assumption; try reflexivity; try apply Hs;
          apply Hv|].
  exact (toggle_pressed_twice (key_toggle "KeyC") crouch_action
           toggle_key_down [toggle_key_held; toggle_key_up]
           toggle_key_down [toggle_key_held; toggle_key_up; idle_frame]
           Hs eq_refl Hv Hp Hb Hp Ha).
Defined.

(** ** A digital axis *)

Lemma fle_proper a a' b b' : a == a' -> b == b' -> fle a b = fle a' b'.
Proof.
  intros Ha Hb. destruct (fle a b) eqn:E1, (fle a' b') eqn:E2;
    try reflexivity; comparisons; lra.
Qed.

Lemma flt_proper a a' b b' : a == a' -> b == b' -> flt a b = flt a' b'.
Proof.
  intros Ha Hb. destruct (flt a b) eqn:E1, (flt a' b') eqn:E2;
    try reflexivity; comparisons; lra.
Qed.

(** With scale 1 the value read for a gamepad axis binding is the raw
    reading of the axis. *)
Lemma gamepad_axis_reading d state r :
  device d = Gamepad ->
  scale d = 1 ->
  axes (gamepad state) !! control d = Some r ->
  extract_axis_value d state == r.
Proof.
  intros Hdev Hsc Hax. unfold extract_axis_value, axis_value.
  rewrite Hdev, Hax, Hsc. ring.
Qed.

(** C4: a digital axis binding with deadzone 0.25 and scale 1.0, alone on
    its action, with [r] the reading of its control.  Whenever the reading
    is beyond the deadzone the accumulated value (before clamping and
    smoothing) is exactly +1 or -1 with the sign of the reading; for the
    reading 0.3 it is +1. *)
Theorem digital_axis_saturates d action state r :
  kind d = Axis ->
  interpretation d = Digital ->
  deadzone d = 1 # 4 ->
  scale d = 1 ->
  runtime_bindings action = [Build_RuntimeBinding d] ->
  extract_axis_value d state == r ->
  1 # 4 < Qabs r ->
  accumulated_value action state = (if fle 0 r then 1 else - (1))
  /\ (r == 3 # 10 -> accumulated_value action state = 1).
Proof.
  intros Hk Hi Hdz Hsc Hb Hax Hr.
  assert (Hacc : accumulated_value action state
                 = (if fle 0 r then 1 else - (1))).
  { unfold accumulated_value, fold_bindings. rewrite Hb. cbn [fold_left].
    unfold binding_step. cbn [descriptor]. rewrite Hk, Hi, Hdz, Hsc.
    set (reading := extract_axis_value d state) in *.
    assert (Hout : fle (fabs reading) (1 # 4) = false).
    { apply fle_false. unfold fabs. rewrite Hax. exact Hr. }
    rewrite Hout.
    assert (Hact : flt (1 # 4) (fabs reading) = true).
    { apply flt_true. unfold fabs. rewrite Hax. exact Hr. }
    rewrite Hact.
    rewrite (fle_proper 0 0 reading r (Qeq_refl 0) Hax).
    unfold apply_toggle, init_locals. cbn.
    destruct (fle 0 r); reflexivity. }
  split; [exact Hacc|].
  intros H3. rewrite Hacc.
  assert (H0 : fle 0 r = true) by (apply fle_true; lra).
  rewrite H0. reflexivity.
Qed.

Lemma digital_axis_saturates_witness :
  (kind (digital_axis "left_x") = Axis
   /\ interpretation (digital_axis "left_x") = Digital
   /\ deadzone (digital_axis "left_x") = 1 # 4
   /\ scale (digital_axis "left_x") = 1
   /\ runtime_bindings strafe_action
      = [Build_RuntimeBinding (digital_axis "left_x")]
   /\ axes (gamepad stick_right) !! "left_x" = Some (3 # 10)
   /\ extract_axis_value (digital_axis "left_x") stick_right == 3 # 10
   /\ 1 # 4 < Qabs (3 # 10))
  /\ accumulated_value strafe_action stick_right = 1.
Proof.
  assert (Hraw : axes (gamepad stick_right) !! "left_x" = Some (3 # 10))
    by (vm_compute; reflexivity).
  assert (Hax : extract_axis_value (digital_axis "left_x") stick_right
                == 3 # 10)
    by (apply gamepad_axis_reading; [reflexivity|reflexivity|exact Hraw]).
  assert (Hr : 1 # 4 < Qabs (3 # 10)) by reflexivity.
  split; [repeat split; try reflexivity; assumption|].
  apply (digital_axis_saturates (digital_axis "left_x") strafe_action
           stick_right (3 # 10) eq_refl eq_refl eq_refl eq_refl eq_refl
           Hax Hr).
  reflexivity.
Defined.

(** ** Smoothing *)

Lemma clamp_hi (v lo hi : float) :
  lo <= hi -> hi < v -> clamp v lo hi = hi.
Proof.
  intros Hlh Hv. unfold clamp.
  destruct (flt v lo) eqn:E1; comparisons; [lra|].
  destruct (flt hi v) eqn:E2; comparisons; [reflexivity|lra].
Qed.

(** The emitted value is [smooth] of the clamped accumulated value. *)
Lemma compute_state_value action state :
  value (fst (compute_state action state))
  = smooth action state (clamp (accumulated_value action state) (- (1)) 1).
Proof. reflexivity. Qed.

(** C5: the emitted value is the linear interpolation from
    [previous_value] to the clamped accumulated value with step
    [clamp (delta_time / smoothing_window) 0 1] when both
    [smoothing_window] and [delta_time] are positive, and the clamped
    accumulated value itself otherwise.  With window 1, target 1 and
    previous value 0, a frame of 0.5 s gives 0.5 and a frame of 2 s
    gives 1. *)
Theorem smoothing_is_clamped_interpolation action state :
  let target := clamp (accumulated_value action state) (- (1)) 1 in
  let smoothed := value (fst (compute_state action state)) in
  (0 < smoothing_window (spec action) -> 0 < delta_time state ->
   smoothed
   = previous_value action
     + (target - previous_value action)
       * clamp (delta_time state / smoothing_window (spec action)) 0 1)
  /\ (~ (0 < smoothing_window (spec action) /\ 0 < delta_time state) ->
      smoothed = target)
  /\ (smoothing_window (spec action) == 1 -> target == 1 ->
      previous_value action == 0 ->
      (delta_time state == 1 # 2 -> smoothed == 1 # 2)
      /\ (delta_time state == 2 -> smoothed == 1)).
Proof.
  cbv zeta. rewrite compute_state_value.
  set (target := clamp (accumulated_value action state) (- (1)) 1).
  assert (Hon : 0 < smoothing_window (spec action) -> 0 < delta_time state ->
    smooth action state target
    = previous_value action
      + (target - previous_value action)
        * clamp (delta_time state / smoothing_window (spec action)) 0 1).
  { intros Hw Hd. unfold smooth.
    apply flt_true in Hw. apply flt_true in Hd. rewrite Hw, Hd.
    reflexivity. }
  split; [exact Hon|]. split.
  - intros Hoff. unfold smooth.
    destruct (flt 0 (smoothing_window (spec action))) eqn:Ew;
      [|reflexivity].
    destruct (flt 0 (delta_time state)) eqn:Ed; [|reflexivity].
    comparisons. exfalso. apply Hoff. by split.
  - intros Hw Ht Hp.
    assert (Hw0 : 0 < smoothing_window (spec action)) by lra.
    split; intros Hd.
    + assert (Hd0 : 0 < delta_time state) by lra.
      rewrite (Hon Hw0 Hd0).
      assert (Hq : delta_time state / smoothing_window (spec action)
                   == 1 # 2) by (rewrite Hw, Hd; reflexivity).
      rewrite (clamp_id _ 0 1) by (rewrite Hq; lra).
      rewrite Hq, Ht, Hp. reflexivity.
    + assert (Hd0 : 0 < delta_time state) by lra.
      rewrite (Hon Hw0 Hd0).
      assert (Hq : delta_time state / smoothing_window (spec action)
                   == 2) by (rewrite Hw, Hd; reflexivity).
      rewrite (clamp_hi _ 0 1) by (rewrite ?Hq; lra).
      rewrite Ht, Hp. reflexivity.
Qed.

Lemma smoothing_is_clamped_interpolation_witness :
  (0 < smoothing_window (spec throttle_action)
   /\ 0 < delta_time (throttle_held (1 # 2))
   /\ ~ (0 < smoothing_window (spec crouch_action)
         /\ 0 < delta_time toggle_key_down)
   /\ smoothing_window (spec throttle_action) == 1
   /\ clamp (accumulated_value throttle_action (throttle_held (1 # 2)))
            (- (1)) 1 == 1
   /\ clamp (accumulated_value throttle_action (throttle_held 2))
            (- (1)) 1 == 1
   /\ previous_value throttle_action == 0
   /\ delta_time (throttle_held (1 # 2)) == 1 # 2
   /\ delta_time (throttle_held 2) == 2)
  /\ value (fst (compute_state throttle_action (throttle_held (1 # 2))))
     = previous_value throttle_action
       + (clamp (accumulated_value throttle_action (throttle_held (1 # 2)))
                (- (1)) 1
          - previous_value throttle_action)
         * clamp (delta_time (throttle_held (1 # 2))
                  / smoothing_window (spec throttle_action)) 0 1
  /\ value (fst (compute_state crouch_action toggle_key_down))
     = clamp (accumulated_value crouch_action toggle_key_down) (- (1)) 1
  /\ value (fst (compute_state throttle_action (throttle_held (1 # 2))))
     == 1 # 2
  /\ value (fst (compute_state throttle_action (throttle_held 2))) == 1.
Proof.
  assert (Hoff : ~ (0 < smoothing_window (spec crouch_action)
                    /\ 0 < delta_time toggle_key_down))
    by (intros [H _]; discriminate H).
  assert (Ht1 : clamp (accumulated_value throttle_action
                         (throttle_held (1 # 2))) (- (1)) 1 == 1)
    by (vm_compute; reflexivity).
  assert (Ht2 : clamp (accumulated_value throttle_action (throttle_held 2))
                      (- (1)) 1 == 1)
    by (vm_compute; reflexivity).
  split; [repeat split; try assumption; reflexivity|].
  split.
  { apply (proj1 (smoothing_is_clamped_interpolation throttle_action
                    (throttle_held (1 # 2)))); reflexivity. }
  split.
  { apply (proj1 (proj2 (smoothing_is_clamped_interpolation crouch_action
                           toggle_key_down))). exact Hoff. }
  split.
  - apply (smoothing_is_clamped_interpolation throttle_action
             (throttle_held (1 # 2))); [reflexivity|exact Ht1|reflexivity|].
    reflexivity.
  - apply (smoothing_is_clamped_interpolation throttle_action
             (throttle_held 2)); [reflexivity|exact Ht2|reflexivity|].
    reflexivity.
Defined.

(** ** Rebinding *)

(** C6: [rebind] on an id that is not in the table throws the error that
    names the id and leaves the table as it was; on an id that is in the
    table it returns normally, the entry keeping everything but its
    bindings. *)
Theorem rebind_unknown_action_fails (_actions : gmap string RuntimeAction)
    action new_bindings :
  (_actions !! action = None ->
   rebind action new_bindings _actions
   = (Err ("unknown action: " ++ action), _actions))
  /\ (forall it, _actions !! action = Some it ->
      exists it',
        rebind action new_bindings _actions
        = (Ok tt, <[action := it']> _actions)
        /\ runtime_bindings it' = Build_RuntimeBinding <$> new_bindings
        /\ spec it' = spec it
        /\ previous_value it' = previous_value it
        /\ toggle_state it' = toggle_state it).
Proof.
  split.
  - intros Hnone. unfold rebind. rewrite Hnone. reflexivity.
  - intros it Hsome. unfold rebind. rewrite Hsome.
    eexists. split; [reflexivity|]. repeat split.
Qed.

Lemma rebind_unknown_action_fails_witness :
  (sample_table !! "fly" = None
   /\ sample_table !! "move" = Some move_action)
  /\ rebind "fly" [key_button "KeyF" 1] sample_table
     = (Err "unknown action: fly", sample_table)
  /\ exists it',
       rebind "move" [key_button "KeyF" 1] sample_table
       = (Ok tt, <["move" := it']> sample_table)
       /\ runtime_bindings it'
          = Build_RuntimeBinding <$> [key_button "KeyF" 1]
       /\ spec it' = spec move_action
       /\ previous_value it' = previous_value move_action
       /\ toggle_state it' = toggle_state move_action.
Proof.
  assert (H1 : sample_table !! "fly" = None) by (vm_compute; reflexivity).
  assert (H2 : sample_table !! "move" = Some move_action)
    by (vm_compute; reflexivity).
  split; [by split|]. split.
  - apply (rebind_unknown_action_fails sample_table "fly"
             [key_button "KeyF" 1]). exact H1.
  - apply (rebind_unknown_action_fails sample_table "move"
             [key_button "KeyF" 1]). exact H2.
Defined.

(** ** Evaluating one action *)

(** C9: [evaluate_action] on a known id is a frame step.  It writes the
    action that [compute_state] leaves, with the emitted value as its
    [previous_value], back into the table and touches no other entry; and
    there is a smoothed action on which two calls with the same snapshot
    return different values. *)
Theorem evaluate_action_advances_memory :
  (forall (_actions : gmap string RuntimeAction) action state it,
     _actions !! action = Some it ->
     let r := evaluate_action action state _actions in
     fst r = fst (compute_state it state)
     /\ snd r !! action = Some (snd (compute_state it state))
     /\ previous_value (snd (compute_state it state)) = value (fst r)
     /\ forall other, other <> action -> snd r !! other = _actions !! other)
  /\ exists (_actions : gmap string RuntimeAction) action state it,
       _actions !! action = Some it
       /\ 0 < smoothing_window (spec it)
       /\ let r1 := evaluate_action action state _actions in
          let r2 := evaluate_action action state (snd r1) in
          ~ value (fst r1) == value (fst r2).
Proof.
  split.
  - intros m action state it Hit. cbv zeta. unfold evaluate_action.
    rewrite Hit. cbn [fst snd]. repeat split.
    + apply lookup_insert_eq.
    + intros other Hne. by apply lookup_insert_ne.
  - exists sample_table, "throttle", (throttle_held (1 # 2)), throttle_action.
    split; [vm_compute; reflexivity|].
    split; [reflexivity|].
    vm_compute. discriminate.
Qed.

Lemma evaluate_action_advances_memory_witness :
  sample_table !! "throttle" = Some throttle_action
  /\ (let r := evaluate_action "throttle" (throttle_held (1 # 2))
                 sample_table in
      fst r = fst (compute_state throttle_action (throttle_held (1 # 2)))
      /\ snd r !! "throttle"
         = Some (snd (compute_state throttle_action (throttle_held (1 # 2))))
      /\ previous_value
           (snd (compute_state throttle_action (throttle_held (1 # 2))))
         = value (fst r)
      /\ forall other, other <> "throttle" ->
           snd r !! other = sample_table !! other).
Proof.
  assert (H : sample_table !! "throttle" = Some throttle_action)
    by (vm_compute; reflexivity).
  split; [exact H|].
  apply (proj1 evaluate_action_advances_memory sample_table "throttle"
           (throttle_held (1 # 2)) throttle_action H).
Defined.

(** An id that is not in the table: the neutral state, and the table as it
    was. *)
Lemma evaluate_action_unknown (_actions : gmap string RuntimeAction)
    action state :
  _actions !! action = None ->
  evaluate_action action state _actions = (default_state, _actions).
Proof. intros H. unfold evaluate_action. by rewrite H. Qed.

(** Opposite keys held together cancel before smoothing. *)
Example opposite_keys_cancel :
  accumulated_value move_action both_held == 0.
Proof. vm_compute. reflexivity. Qed.

(** The two values of the example: 1/2, then 3/4. *)
Example throttle_twice :
  let r1 := evaluate_action "throttle" (throttle_held (1 # 2)) sample_table in
  let r2 := evaluate_action "throttle" (throttle_held (1 # 2)) (snd r1) in
  value (fst r1) == 1 # 2 /\ value (fst r2) == 3 # 4.
Proof. vm_compute. split; reflexivity. Qed.

(** ** Loading a spec with repeated ids *)

Lemma emplace_lookup {A : Type} key (v : A) (m : gmap string A) name :
  emplace key v m !! name
  = match m !! name with
    | Some x => Some x
    | None => if String.eqb key name then Some v else None
    end.
Proof.
  unfold emplace. destruct (String.eqb_spec key name) as [->|Hne].
  - destruct (m !! name) eqn:E; [by rewrite E|].
    by rewrite lookup_insert_eq.
  - destruct (m !! key) eqn:E; [by destruct (m !! name)|].
    rewrite lookup_insert_ne by done. by destruct (m !! name).
Qed.

Lemma fold_emplace_lookup l : forall (m : gmap string RuntimeAction) name,
  fold_left (fun m action => emplace (action_id action) (runtime_of action) m)
            l m !! name
  = match m !! name with
    | Some x => Some x
    | None => runtime_of <$> first_with_id name l
    end.
Proof.
  induction l as [|a l IH]; intros m name; simpl.
  - by destruct (m !! name).
  - rewrite IH, emplace_lookup.
    destruct (m !! name); [done|].
    by destruct (String.eqb (action_id a) name).
Qed.

Lemma emplace_dom {A : Type} key (v : A) (m : gmap string A) :
  dom (emplace key v m) = {[key]} ∪ dom m.
Proof.
  unfold emplace. destruct (m !! key) eqn:E.
  - assert (key ∈ dom m) by (apply elem_of_dom; eauto). set_solver.
  - apply dom_insert_L.
Qed.

Lemma fold_emplace_dom l : forall (m : gmap string RuntimeAction),
  dom (fold_left
         (fun m action => emplace (action_id action) (runtime_of action) m)
         l m)
  = list_to_set (action_id <$> l) ∪ dom m.
Proof.
  induction l as [|a l IH]; intros m; simpl.
  - set_solver.
  - rewrite IH, emplace_dom. set_solver.
Qed.

(** C10: [load] raises nothing, whatever the spec.  Looking an id up in the
    loaded table gives the fresh runtime action of the first entry of the
    spec with that id, later entries with the same id are dropped, and the
    table has one entry per distinct id. *)
Theorem load_keeps_first_duplicate spec0 (_actions : gmap string RuntimeAction) :
  (forall name,
     load spec0 _actions !! name
     = runtime_of <$> first_with_id name (actions spec0))
  /\ dom (load spec0 _actions)
     = (list_to_set (action_id <$> actions spec0) : gset string)
  /\ size (load spec0 _actions)
     = length (remove_dups (action_id <$> actions spec0)).
Proof.
  assert (Hdom : dom (load spec0 _actions)
                 = (list_to_set (action_id <$> actions spec0) : gset string)).
  { unfold load. rewrite fold_emplace_dom. set_solver. }
  split; [|split; [exact Hdom|]].
  - intros name. unfold load. rewrite fold_emplace_lookup.
    by rewrite lookup_empty.
  - rewrite <- size_dom, Hdom.
    rewrite <- (size_list_to_set (C := gset string)
                  (remove_dups (action_id <$> actions spec0)))
      by apply NoDup_remove_dups.
    f_equal. apply set_eq. intros x.
    rewrite !elem_of_list_to_set. by rewrite elem_of_remove_dups.
Qed.

(** The spec with ["move"] twice: two entries, and ["move"] is the first
    of its two descriptions. *)
Example load_duplicate_spec :
  size (load duplicate_spec ∅) = 2%nat
  /\ load duplicate_spec ∅ !! "move" = Some move_action
  /\ load duplicate_spec ∅ !! "crouch" = Some crouch_action.
Proof. vm_compute. repeat split; reflexivity. Qed.

(** ** Ingestion of a binding table document *)












(** The sample texts, read in full. *)
Example odd_text_is_read :
  FromJson sample_stod 100 odd_text
  = Some (Ok {| actions :=
            [{| action_id := "zoom";
                bindings := [{| device := Keyboard; kind := Button;
                                control := "KeyZ"; scale := 1;
                                deadzone := 1 # 10; toggle := false;
                                interpretation := Analog |}];
                smoothing_window := 0; analog_threshold := 2 # 10 |}] |}).
Proof. vm_compute. reflexivity. Qed.

Example broken_texts_are_rejected :
  FromJson sample_stod 100 nameless_text
  = Some (Err "action entry missing 'id'")
  /\ FromJson sample_stod 100 unbound_text
     = Some (Err "action entry missing 'bindings'")
  /\ FromJson sample_stod 100 uncontrolled_text
     = Some (Err "binding missing 'control'").
Proof. vm_compute. repeat split; reflexivity. Qed.

Example manifest_is_read :
  FromJson sample_stod 200 manifest_text = Some (Ok manifest_spec).
Proof. vm_compute. reflexivity. Qed.

(** What the reader itself rejects. *)
Example reader_rejects :
  parse sample_stod 100 (quotes "[[[[")
  = Some (Err "unexpected token in JSON")
  /\ parse sample_stod 100 (quotes "'abc")
     = Some (Err "unterminated string")
  /\ parse sample_stod 100 (quotes "{'a': 1,}")
     = Some (Err "expected string key in object")
  /\ parse sample_stod 100 (quotes "null x")
     = Some (Err "unexpected characters after JSON document")
  /\ parse sample_stod 100 (quotes "-")
     = Some (Err "invalid numeric literal").
Proof. vm_compute. repeat split; reflexivity. Qed.

(** ** The reader comes to an end *)

Lemma skip_whitespace_length rest :
  (String.length (skip_whitespace rest) <= String.length rest)%nat.
Proof.
  induction rest as [|c rest IH]; simpl; [lia|].
  destruct (is_whitespace c); simpl; lia.
Qed.

Lemma peek_nonempty rest c :
  peek rest = c -> c <> "000"%char -> (1 <= String.length rest)%nat.
Proof. destruct rest; simpl; [congruence|lia]. Qed.

Lemma push_back_length s c : String.length (push_back s c) = S (String.length s).
Proof. unfold push_back. induction s; simpl; [reflexivity|by rewrite IHs]. Qed.

Lemma parse_string_loop_bounded n : forall rest result0,
  (String.length rest <= n)%nat ->
  finishes (parse_string_loop result0 rest) (String.length rest).
Proof.
  induction n as [|n IH]; intros rest result0 Hn.
  - destruct rest; simpl in *; [exact I|lia].
  - destruct rest as [|c rest]; simpl; [exact I|].
    destruct (Ascii.eqb c "034"); simpl; [lia|].
    destruct (Ascii.eqb c "\").
    + destruct rest as [|next rest]; [exact I|].
      assert (Hlen : (String.length rest <= n)%nat) by (simpl in Hn; lia).
      repeat match goal with
      | |- finishes (if ?b then _ else _) _ => destruct b
      | |- finishes (parse_string_loop ?r rest) _ =>
          pose proof (IH rest r Hlen) as Hf;
          destruct (parse_string_loop r rest); simpl in *; try lia; exact Hf
      | |- finishes (Thrown _) _ => exact I
      end.
    + assert (Hlen : (String.length rest <= n)%nat) by (simpl in Hn; lia).
      pose proof (IH rest (push_back result0 c) Hlen) as Hf.
      destruct (parse_string_loop (push_back result0 c) rest); simpl in *;
        try lia; exact Hf.
Qed.

Lemma parse_string_finishes rest :
  finishes (parse_string rest) (String.length rest).
Proof.
  unfold parse_string. destruct rest as [|c rest]; simpl; [exact I|].
  destruct (negb (Ascii.eqb c "034")); [exact I|].
  pose proof (parse_string_loop_bounded _ rest EmptyString (le_n _)) as Hf.
  destruct (parse_string_loop EmptyString rest); simpl in *; try lia; exact Hf.
Qed.

Lemma take_digits_length rest : forall number,
  (String.length (snd (take_digits number rest)) <= String.length rest)%nat.
Proof.
  induction rest as [|c rest IH]; intros number; simpl; [lia|].
  destruct (isdigit c); simpl; [|lia]. specialize (IH (push_back number c)). lia.
Qed.

Lemma take_if_length accepted number rest :
  (String.length (snd (take_if accepted number rest)) <= String.length rest)%nat.
Proof.
  unfold take_if. destruct rest as [|c rest]; simpl; [lia|].
  destruct (accepted c); simpl; lia.
Qed.

Lemma parse_number_finishes stod rest :
  finishes (parse_number stod rest) (String.length rest).
Proof.
  unfold parse_number.
  pose proof (take_if_length (Ascii.eqb "-") EmptyString rest) as H1.
  destruct (take_if (Ascii.eqb "-") EmptyString rest) as [n1 r1].
  pose proof (take_digits_length r1 n1) as H2.
  destruct (take_digits n1 r1) as [n2 r2]. simpl in *.
  assert (H3 : exists n3 r3,
    (if Ascii.eqb (peek r2) "."
     then let '(number, rest) := take_if (Ascii.eqb ".") n2 r2 in
          take_digits number rest
     else (n2, r2)) = (n3, r3)
    /\ (String.length r3 <= String.length r2)%nat).
  { destruct (Ascii.eqb (peek r2) ".").
    - pose proof (take_if_length (Ascii.eqb ".") n2 r2) as Ha.
      destruct (take_if (Ascii.eqb ".") n2 r2) as [na ra].
      pose proof (take_digits_length ra na) as Hb.
      destruct (take_digits na ra) as [nb rb]. simpl in *.
      exists nb, rb. split; [reflexivity|lia].
    - exists n2, r2. split; [reflexivity|lia]. }
  destruct H3 as (n3 & r3 & -> & H3).
  assert (H4 : exists n4 r4,
    (if Ascii.eqb (peek r3) "e" || Ascii.eqb (peek r3) "E"
     then let '(number, rest) :=
            take_if (fun c => Ascii.eqb c "e" || Ascii.eqb c "E") n3 r3 in
          let '(number, rest) :=
            take_if (fun c => Ascii.eqb c "+" || Ascii.eqb c "-") number rest in
          take_digits number rest
     else (n3, r3)) = (n4, r4)
    /\ (String.length r4 <= String.length r3)%nat).
  { destruct (Ascii.eqb (peek r3) "e" || Ascii.eqb (peek r3) "E").
    - pose proof (take_if_length
                    (fun c => Ascii.eqb c "e" || Ascii.eqb c "E") n3 r3) as Ha.
      destruct (take_if (fun c => Ascii.eqb c "e" || Ascii.eqb c "E") n3 r3)
        as [na ra].
      pose proof (take_if_length
                    (fun c => Ascii.eqb c "+" || Ascii.eqb c "-") na ra) as Hb.
      destruct (take_if (fun c => Ascii.eqb c "+" || Ascii.eqb c "-") na ra)
        as [nb rb].
      pose proof (take_digits_length rb nb) as Hc.
      destruct (take_digits nb rb) as [nc rc]. simpl in *.
      exists nc, rc. split; [reflexivity|lia].
    - exists n3, r3. split; [reflexivity|lia]. }
  destruct H4 as (n4 & r4 & -> & H4).
  destruct (stod n4); simpl; [lia|exact I].
Qed.

Lemma substring_length n m s :
  (String.length (substring n m s) <= String.length s)%nat.
Proof.
  revert n m. induction s as [|c s IH]; intros n m.
  - destruct n, m; simpl; lia.
  - destruct n as [|n]; [destruct m as [|m]|]; simpl; try lia.
    + specialize (IH 0%nat m). lia.
    + specialize (IH n m). lia.
Qed.

Lemma and_then_finishes {A B : Type} (p : parsed A)
    (k : A -> string -> parsed B) n m :
  finishes p n ->
  (forall a rest, (String.length rest <= n)%nat -> finishes (k a rest) m) ->
  finishes (and_then p k) m.
Proof.
  intros Hp Hk. destruct p as [a rest| |]; simpl in *;
    [by apply Hk|exact I|contradiction].
Qed.

Lemma finishes_le {A : Type} (p : parsed A) n m :
  finishes p n -> (n <= m)%nat -> finishes p m.
Proof. destruct p; simpl; [lia|done|done]. Qed.

(** With three units of fuel per character and one to spare, no part of
    the reader runs out of fuel, and none gives back more text than it was
    given. *)
Lemma reader_finishes stod fuel : forall rest,
  ((3 * String.length rest + 1 <= fuel)%nat ->
   finishes (parse_value stod fuel rest) (String.length rest))
  /\ ((1 <= fuel)%nat -> (3 * String.length rest <= fuel)%nat ->
      finishes (parse_object stod fuel rest) (String.length rest))
  /\ (forall object, (3 * String.length rest + 2 <= fuel)%nat ->
      finishes (parse_object_loop stod fuel object rest)
               (String.length rest))
  /\ ((1 <= fuel)%nat -> (3 * String.length rest <= fuel)%nat ->
      finishes (parse_array stod fuel rest) (String.length rest))
  /\ (forall array, (3 * String.length rest + 2 <= fuel)%nat ->
      finishes (parse_array_loop stod fuel array rest)
               (String.length rest)).
Proof.
  induction fuel as [|fuel IH]; intros rest.
  { repeat split; intros; lia. }
  pose proof (skip_whitespace_length rest) as Hws.
  split; [|split; [|split; [|split]]].
  - (* parse_value *)
    intros Hfuel. cbn [parse_value].
    set (rest1 := skip_whitespace rest) in *.
    destruct (IH rest1) as (_ & Hobj & _ & Harr & _).
    destruct (Ascii.eqb (peek rest1) "{") eqn:E1.
    { apply Ascii.eqb_eq in E1.
      pose proof (peek_nonempty rest1 _ E1 ltac:(discriminate)).
      eapply finishes_le; [apply Hobj; lia|lia]. }
    destruct (Ascii.eqb (peek rest1) "[") eqn:E2.
    { apply Ascii.eqb_eq in E2.
      pose proof (peek_nonempty rest1 _ E2 ltac:(discriminate)).
      eapply finishes_le; [apply Harr; lia|lia]. }
    destruct (Ascii.eqb (peek rest1) "034").
    { eapply and_then_finishes; [apply parse_string_finishes|].
      intros s r Hr. simpl. lia. }
    destruct (Ascii.eqb (peek rest1) "-" || isdigit (peek rest1)).
    { eapply finishes_le; [apply parse_number_finishes|lia]. }
    repeat match goal with
    | |- finishes (if ?b then _ else _) _ => destruct b
    | |- finishes (Parsed _ (substring ?n ?m ?s)) _ =>
        simpl; pose proof (substring_length n m s); lia
    | |- finishes (Thrown _) _ => exact I
    end.
  - (* parse_object *)
    intros _ Hfuel. cbn [parse_object].
    destruct rest as [|c rest]; [exact I|]. cbn [consume and_then].
    pose proof (skip_whitespace_length rest) as Hws1.
    set (rest1 := skip_whitespace rest) in *.
    destruct (Ascii.eqb (peek rest1) "}").
    { destruct rest1 as [|c1 rest1]; [exact I|]. simpl in *. lia. }
    destruct (IH rest1) as (_ & _ & Hloop & _ & _).
    eapply finishes_le; [apply Hloop; simpl in *; lia|simpl; lia].
  - (* parse_object_loop *)
    intros object Hfuel. cbn [parse_object_loop].
    set (rest1 := skip_whitespace rest) in *.
    destruct (negb (Ascii.eqb (peek rest1) "034")); [exact I|].
    eapply and_then_finishes; [apply parse_string_finishes|].
    intros key rest2 Hr2.
    pose proof (skip_whitespace_length rest2) as Hws2.
    set (rest3 := skip_whitespace rest2) in *.
    destruct rest3 as [|colon rest4] eqn:E3; [exact I|]. cbn [consume and_then].
    simpl in Hws2.
    destruct (negb (Ascii.eqb colon ":")); [exact I|].
    pose proof (skip_whitespace_length rest4) as Hws4.
    set (rest5 := skip_whitespace rest4) in *.
    destruct (IH rest5) as (Hval & _ & _ & _ & _).
    eapply and_then_finishes; [apply Hval; lia|].
    intros value0 rest6 Hr6.
    pose proof (skip_whitespace_length rest6) as Hws6.
    set (rest7 := skip_whitespace rest6) in *.
    destruct rest7 as [|separator rest8] eqn:E7; [exact I|].
    cbn [consume and_then]. simpl in Hws6.
    destruct (Ascii.eqb separator "}"); [simpl; lia|].
    destruct (negb (Ascii.eqb separator ",")); [exact I|].
    destruct (IH rest8) as (_ & _ & Hloop & _ & _).
    eapply finishes_le; [apply Hloop; lia|lia].
  - (* parse_array *)
    intros _ Hfuel. cbn [parse_array].
    destruct rest as [|c rest]; [exact I|]. cbn [consume and_then].
    pose proof (skip_whitespace_length rest) as Hws1.
    set (rest1 := skip_whitespace rest) in *.
    destruct (Ascii.eqb (peek rest1) "]").
    { destruct rest1 as [|c1 rest1]; [exact I|]. simpl in *. lia. }
    destruct (IH rest1) as (_ & _ & _ & _ & Hloop).
    eapply finishes_le; [apply Hloop; simpl in *; lia|simpl; lia].
  - (* parse_array_loop *)
    intros array Hfuel. cbn [parse_array_loop].
    destruct (IH rest) as (Hval & _ & _ & _ & _).
    eapply and_then_finishes; [apply Hval; lia|].
    intros value0 rest2 Hr2.
    pose proof (skip_whitespace_length rest2) as Hws2.
    set (rest3 := skip_whitespace rest2) in *.
    destruct rest3 as [|separator rest4] eqn:E3; [exact I|].
    cbn [consume and_then]. simpl in Hws2.
    destruct (Ascii.eqb separator "]"); [simpl; lia|].
    destruct (negb (Ascii.eqb separator ",")); [exact I|].
    pose proof (skip_whitespace_length rest4) as Hws4.
    destruct (IH (skip_whitespace rest4)) as (_ & _ & _ & _ & Hloop).
    eapply finishes_le; [apply Hloop; lia|lia].
Qed.

Lemma extends_refl {A : Type} (p : parsed A) : extends p p.
Proof. by destruct p. Qed.

Lemma and_then_extends {A B : Type} (p q : parsed A)
    (k k' : A -> string -> parsed B) :
  extends p q ->
  (forall a rest, extends (k a rest) (k' a rest)) ->
  extends (and_then p k) (and_then q k').
Proof.
  intros Hp Hk. destruct p as [a rest|msg|]; simpl in *; [| |exact I].
  - rewrite Hp. simpl. apply Hk.
  - rewrite Hp. reflexivity.
Qed.

(** More fuel does not change an answer. *)
Lemma reader_fuel_mono stod fuel : forall fuel' rest,
  (fuel <= fuel')%nat ->
  extends (parse_value stod fuel rest) (parse_value stod fuel' rest)
  /\ extends (parse_object stod fuel rest) (parse_object stod fuel' rest)
  /\ (forall object,
        extends (parse_object_loop stod fuel object rest)
                (parse_object_loop stod fuel' object rest))
  /\ extends (parse_array stod fuel rest) (parse_array stod fuel' rest)
  /\ (forall array,
        extends (parse_array_loop stod fuel array rest)
                (parse_array_loop stod fuel' array rest)).
Proof.
  induction fuel as [|fuel IH]; intros fuel' rest Hle.
  { repeat split; intros; exact I. }
  destruct fuel' as [|fuel']; [lia|].
  assert (Hle' : (fuel <= fuel')%nat) by lia.
  split; [|split; [|split; [|split]]].
  - cbn [parse_value].
    set (rest1 := skip_whitespace rest).
    destruct (IH fuel' rest1 Hle') as (_ & Hobj & _ & Harr & _).
    repeat match goal with
    | |- extends (if ?b then _ else _) (if ?b then _ else _) => destruct b
    end; try apply extends_refl; assumption.
  - cbn [parse_object].
    apply and_then_extends; [apply extends_refl|]. intros _ rest1.
    destruct (Ascii.eqb (peek (skip_whitespace rest1)) "}");
      [apply extends_refl|].
    apply (IH fuel' (skip_whitespace rest1) Hle').
  - intros object. cbn [parse_object_loop].
    destruct (negb (Ascii.eqb (peek (skip_whitespace rest)) "034"));
      [apply extends_refl|].
    apply and_then_extends; [apply extends_refl|]. intros key rest2.
    apply and_then_extends; [apply extends_refl|]. intros colon rest3.
    destruct (negb (Ascii.eqb colon ":")); [apply extends_refl|].
    apply and_then_extends;
      [apply (IH fuel' (skip_whitespace rest3) Hle')|].
    intros value0 rest4.
    apply and_then_extends; [apply extends_refl|]. intros separator rest5.
    destruct (Ascii.eqb separator "}"); [apply extends_refl|].
    destruct (negb (Ascii.eqb separator ",")); [apply extends_refl|].
    apply (IH fuel' rest5 Hle').
  - cbn [parse_array].
    apply and_then_extends; [apply extends_refl|]. intros _ rest1.
    destruct (Ascii.eqb (peek (skip_whitespace rest1)) "]");
      [apply extends_refl|].
    apply (IH fuel' (skip_whitespace rest1) Hle').
  - intros array. cbn [parse_array_loop].
    apply and_then_extends; [apply (IH fuel' rest Hle')|].
    intros value0 rest2.
    apply and_then_extends; [apply extends_refl|]. intros separator rest3.
    destruct (Ascii.eqb separator "]"); [apply extends_refl|].
    destruct (negb (Ascii.eqb separator ",")); [apply extends_refl|].
    apply (IH fuel' (skip_whitespace rest3) Hle').
Qed.

(** [parse] and [FromJson] return or throw on every text once the fuel is
    [fuel_for] the text, and any larger fuel gives the same answer. *)
Lemma parse_enough_fuel stod text_ fuel :
  (fuel_for text_ <= fuel)%nat ->
  exists r, parse stod fuel text_ = Some r
            /\ parse stod (fuel_for text_) text_ = Some r.
Proof.
  intros Hfuel. unfold parse.
  pose proof (skip_whitespace_length text_) as Hws.
  destruct (reader_finishes stod (fuel_for text_) (skip_whitespace text_))
    as (Hfin & _).
  specialize (Hfin ltac:(unfold fuel_for; lia)).
  destruct (reader_fuel_mono stod (fuel_for text_) fuel
              (skip_whitespace text_) Hfuel) as (Hext & _).
  destruct (parse_value stod (fuel_for text_) (skip_whitespace text_))
    as [v rest|msg|]; simpl in Hfin, Hext; [| |contradiction];
    rewrite Hext; [|eexists; split; reflexivity].
  destruct (skip_whitespace rest); eexists; split; reflexivity.
Qed.

Lemma FromJson_enough_fuel stod json_text fuel :
  (fuel_for json_text <= fuel)%nat ->
  exists r, FromJson stod fuel json_text = Some r
            /\ FromJson stod (fuel_for json_text) json_text = Some r.
Proof.
  intros Hfuel. unfold FromJson.
  destruct (parse_enough_fuel stod json_text fuel Hfuel) as (r & -> & ->).
  destruct r; eexists; split; reflexivity.
Qed.

(** * More properties of the input mapping *)

(** ** Evaluating all actions and evaluating one *)

(** X1: [evaluate] and [evaluate_action] agree, action by action.  What a
    caller reads with [state_for] (or [value_or]) from the result of
    [evaluate] is what [evaluate_action] returns for that id, the neutral
    state (or the fallback) for an id that is not in the table included,
    and both leave the same entry for that id in the table. *)
Theorem evaluate_agrees_with_evaluate_action
    (_actions : gmap string RuntimeAction) state action fallback :
  state_for action (fst (evaluate state _actions))
  = fst (evaluate_action action state _actions)
  /\ value_or action fallback (fst (evaluate state _actions))
     = (if has_action action (fst (evaluate state _actions))
        then value (fst (evaluate_action action state _actions))
        else fallback)
  /\ snd (evaluate state _actions) !! action
     = snd (evaluate_action action state _actions) !! action.
Proof.
  unfold evaluate, evaluate_action, state_for, value_or, has_action.
  cbn [fst snd]. rewrite !lookup_fmap.
  destruct (_actions !! action) as [it|] eqn:E; cbn [fmap option_fmap option_map fst snd].
  - rewrite lookup_insert_eq.
    rewrite bool_decide_eq_true_2 by eauto. done.
  - rewrite E. rewrite bool_decide_eq_false_2 by (intros [? ?]; done). done.
Qed.

(** X2: evaluation reads the binding table and writes only the memory.
    [evaluate] and [evaluate_action] keep the set of action ids, the result
    of [evaluate] has a state for exactly these ids, and every action keeps
    its spec and its bindings. *)
Theorem evaluation_keeps_the_binding_table
    (_actions : gmap string RuntimeAction) state action :
  dom (fst (evaluate state _actions)) = dom _actions
  /\ dom (snd (evaluate state _actions)) = dom _actions
  /\ dom (snd (evaluate_action action state _actions)) = dom _actions
  /\ forall name it,
       _actions !! name = Some it ->
       (exists it', snd (evaluate state _actions) !! name = Some it'
                    /\ spec it' = spec it
                    /\ runtime_bindings it' = runtime_bindings it)
       /\ (exists it', snd (evaluate_action action state _actions) !! name
                       = Some it'
                       /\ spec it' = spec it
                       /\ runtime_bindings it' = runtime_bindings it).
Proof.
  unfold evaluate, evaluate_action. cbn [fst snd].
  split; [apply dom_fmap_L|]. split; [apply dom_fmap_L|]. split.
  - destruct (_actions !! action) as [it|] eqn:E; cbn [snd]; [|done].
    rewrite dom_insert_L.
    assert (action ∈ dom _actions) by (apply elem_of_dom; eauto).
    set_solver.
  - intros name it Hit. split.
    + rewrite lookup_fmap, Hit. cbn. eexists. split; [reflexivity|]. done.
    + destruct (_actions !! action) as [it0|] eqn:E; cbn [snd].
      * destruct (decide (action = name)) as [->|Hne].
        -- rewrite lookup_insert_eq. rewrite Hit in E. injection E as <-.
           eexists. split; [reflexivity|]. done.
        -- rewrite lookup_insert_ne by done. eauto.
      * eauto.
Qed.

Lemma evaluation_keeps_the_binding_table_witness :
  sample_table !! "move" = Some move_action
  /\ (exists it',
        snd (evaluate opposite_edges sample_table) !! "move" = Some it'
        /\ spec it' = spec move_action
        /\ runtime_bindings it' = runtime_bindings move_action)
  /\ (exists it',
        snd (evaluate_action "move" opposite_edges sample_table) !! "move"
        = Some it'
        /\ spec it' = spec move_action
        /\ runtime_bindings it' = runtime_bindings move_action).
Proof.
  assert (H : sample_table !! "move" = Some move_action)
    by (vm_compute; reflexivity).
  split; [exact H|].
  apply (evaluation_keeps_the_binding_table sample_table opposite_edges
           "move"). exact H.
Defined.

(** ** Rebinding twice, and rebinding to the same bindings *)

(** X3: of two [rebind] calls on the same action the second decides: the
    table (and the outcome) is as if only the second had been made.
    Rebinding an action to the bindings it has changes nothing, and no
    [rebind] changes the set of action ids or another action. *)
Theorem rebind_last_wins (_actions : gmap string RuntimeAction)
    action first second :
  rebind action second (snd (rebind action first _actions))
  = rebind action second _actions
  /\ (forall it, _actions !! action = Some it ->
      snd (rebind action (descriptor <$> runtime_bindings it) _actions)
      = _actions)
  /\ dom (snd (rebind action first _actions)) = dom _actions
  /\ (forall other, other <> action ->
      snd (rebind action first _actions) !! other = _actions !! other).
Proof.
  split; [|split; [|split]].
  - unfold rebind. destruct (_actions !! action) as [it|] eqn:E; cbn [snd].
    + rewrite lookup_insert_eq. cbn. by rewrite insert_insert_eq.
    + by rewrite E.
  - intros it Hit. unfold rebind. rewrite Hit. cbn [snd].
    apply insert_id. rewrite Hit. f_equal.
    assert (Hsame : Build_RuntimeBinding <$> (descriptor <$> runtime_bindings it)
                    = runtime_bindings it).
    { generalize (runtime_bindings it) as rbs.
      induction rbs as [|[d] rbs IH]; [done|]. cbn. f_equal. exact IH. }
    rewrite Hsame. by destruct it.
  - unfold rebind. destruct (_actions !! action) as [it|] eqn:E; cbn [snd];
      [|done].
    rewrite dom_insert_L.
    assert (action ∈ dom _actions) by (apply elem_of_dom; eauto).
    set_solver.
  - intros other Hne. unfold rebind.
    destruct (_actions !! action) as [it|] eqn:E; cbn [snd]; [|done].
    by rewrite lookup_insert_ne.
Qed.

Lemma rebind_last_wins_witness :
  sample_table !! "move" = Some move_action
  /\ snd (rebind "move" (descriptor <$> runtime_bindings move_action)
            sample_table) = sample_table
  /\ snd (rebind "move" [key_button "KeyF" 1] sample_table) !! "crouch"
     = sample_table !! "crouch".
Proof.
  assert (H : sample_table !! "move" = Some move_action)
    by (vm_compute; reflexivity).
  split; [exact H|]. split.
  - apply (rebind_last_wins sample_table "move" [] []). exact H.
  - apply (rebind_last_wins sample_table "move" [key_button "KeyF" 1] []).
    discriminate.
Defined.

(** ** Actions made of plain buttons *)

(** One plain button binding in the loop. *)
Lemma binding_step_plain action state L rb :
  plain_button rb ->
  binding_step action state L rb
  = {| acc_value :=
         acc_value L
         + (if pressed (button_of (descriptor rb) state)
            then scale (descriptor rb) else 0);
       any_pressed :=
         any_pressed L || pressed (button_of (descriptor rb) state);
       any_triggered :=
         any_triggered L || just_pressed (button_of (descriptor rb) state);
       any_released :=
         any_released L || just_released (button_of (descriptor rb) state);
       has_toggle := has_toggle L;
       toggle_value := toggle_value L;
       acc_toggle_scale := acc_toggle_scale L;
       toggle_turned_on := toggle_turned_on L;
       toggle_turned_off := toggle_turned_off L |}.
Proof.
  intros [Hk Ht]. unfold binding_step. rewrite Hk, Ht.
  rewrite extract_button_pressed_button_of,
    extract_button_triggered_button_of, extract_button_released_button_of.
  reflexivity.
Qed.

(** The loop over plain button bindings: the scales of the pressed ones are
    added, the flags are ORed, the toggle locals are not touched. *)
Lemma fold_plain_buttons action state rbs : forall L,
  Forall plain_button rbs ->
  let L' := fold_left (binding_step action state) rbs L in
  acc_value L' == acc_value L + pressed_scales state rbs
  /\ any_pressed L' = any_pressed L || some_pressed state rbs
  /\ any_triggered L' = any_triggered L || some_just_pressed state rbs
  /\ any_released L' = any_released L || some_just_released state rbs
  /\ has_toggle L' = has_toggle L
  /\ toggle_value L' = toggle_value L
  /\ acc_toggle_scale L' = acc_toggle_scale L
  /\ toggle_turned_on L' = toggle_turned_on L
  /\ toggle_turned_off L' = toggle_turned_off L.
Proof.
  induction rbs as [|rb rbs IH]; intros L Hall; cbv zeta.
  - unfold pressed_scales, some_pressed, some_just_pressed,
      some_just_released. cbn [fold_left fold_right existsb].
    rewrite !orb_false_r. repeat split; try reflexivity. ring.
  - apply Forall_cons in Hall as [Hrb Hall].
    specialize (IH (binding_step action state L rb) Hall). cbv zeta in IH.
    destruct IH as (Hv & Hp & Htr & Hre & H1 & H2 & H3 & H4 & H5).
    cbn [fold_left]. rewrite Hp, Htr, Hre, H1, H2, H3, H4, H5.
    rewrite Hv. rewrite (binding_step_plain action state L rb Hrb).
    unfold pressed_scales, some_pressed, some_just_pressed,
      some_just_released.
    cbn [acc_value any_pressed any_triggered any_released has_toggle
         toggle_value acc_toggle_scale toggle_turned_on toggle_turned_off
         fold_right existsb].
    rewrite !orb_assoc.
    repeat split; try reflexivity. ring.
Qed.

(** The parts of the emitted state, in terms of the locals after the loop
    and the toggle block, the emitted value and the value before. *)
Lemma compute_state_active action state :
  active (fst (compute_state action state))
  = any_pressed (apply_toggle (fold_bindings action state))
    || flt (1 # 1000) (fabs (value (fst (compute_state action state)))).
Proof. reflexivity. Qed.

Lemma compute_state_triggered action state :
  triggered (fst (compute_state action state))
  = if negb (any_triggered (apply_toggle (fold_bindings action state)))
       && flt 0 (analog_threshold (spec action))
    then fle (analog_threshold (spec action))
             (fabs (value (fst (compute_state action state))))
         && flt (fabs (previous_value action))
                (analog_threshold (spec action))
    else any_triggered (apply_toggle (fold_bindings action state)).
Proof. reflexivity. Qed.

Lemma compute_state_released action state :
  released (fst (compute_state action state))
  = if negb (any_released (apply_toggle (fold_bindings action state)))
       && flt 0 (analog_threshold (spec action))
    then fle (fabs (value (fst (compute_state action state))))
             (analog_threshold (spec action) * (1 # 2))
         && flt (analog_threshold (spec action) * (1 # 2))
                (fabs (previous_value action))
    else any_released (apply_toggle (fold_bindings action state)).
Proof. reflexivity. Qed.

Lemma compute_state_spec action state :
  spec (snd (compute_state action state)) = spec action
  /\ runtime_bindings (snd (compute_state action state))
     = runtime_bindings action.
Proof. split; reflexivity. Qed.

Lemma clamp_proper v v' lo hi :
  v == v' -> clamp v lo hi == clamp v' lo hi.
Proof.
  intros Hv. unfold clamp.
  rewrite (flt_proper v v' lo lo Hv (Qeq_refl lo)).
  rewrite (flt_proper hi hi v v' (Qeq_refl hi) Hv).
  destruct (flt v' lo); [reflexivity|].
  destruct (flt hi v'); [reflexivity|exact Hv].
Qed.

Lemma fabs_proper x y : x == y -> fabs x == fabs y.
Proof. intros H. unfold fabs. by rewrite H. Qed.

(** No smoothing when the window is not positive. *)
Lemma smooth_no_window action state v :
  smoothing_window (spec action) <= 0 -> smooth action state v = v.
Proof.
  intros Hw. unfold smooth.
  apply flt_false in Hw. rewrite Hw. reflexivity.
Qed.

(** The locals of an action of plain buttons after the loop and the toggle
    block. *)
Lemma plain_buttons_locals action state :
  Forall plain_button (runtime_bindings action) ->
  accumulated_value action state
  == pressed_scales state (runtime_bindings action)
  /\ any_pressed (apply_toggle (fold_bindings action state))
     = some_pressed state (runtime_bindings action)
  /\ any_triggered (apply_toggle (fold_bindings action state))
     = some_just_pressed state (runtime_bindings action)
  /\ any_released (apply_toggle (fold_bindings action state))
     = some_just_released state (runtime_bindings action).
Proof.
  intros Hall. unfold accumulated_value, fold_bindings.
  destruct (fold_plain_buttons action state (runtime_bindings action)
              (init_locals action) Hall)
    as (Hv & Hp & Htr & Hre & H1 & _).
  assert (Hnt : has_toggle (init_locals action) = false) by reflexivity.
  unfold apply_toggle. rewrite H1, Hnt. rewrite Hv, Hp, Htr, Hre.
  unfold init_locals.
  cbn [acc_value any_pressed any_triggered any_released orb].
  repeat split; try reflexivity. ring.
Qed.

(** X4: on an action whose bindings are all plain (non-toggle) buttons the
    accumulated value is the sum of the scales of the bindings whose button
    is down, so equal and opposite scales cancel; and the three flags after
    the loop say whether some bound button is down, has a press edge, has a
    release edge. *)
Theorem plain_buttons_add_up action state :
  Forall plain_button (runtime_bindings action) ->
  accumulated_value action state
  == pressed_scales state (runtime_bindings action)
  /\ any_pressed (apply_toggle (fold_bindings action state))
     = some_pressed state (runtime_bindings action)
  /\ any_triggered (apply_toggle (fold_bindings action state))
     = some_just_pressed state (runtime_bindings action)
  /\ any_released (apply_toggle (fold_bindings action state))
     = some_just_released state (runtime_bindings action).
Proof. apply plain_buttons_locals. Qed.

Lemma plain_buttons_add_up_witness :
  Forall plain_button (runtime_bindings move_action)
  /\ accumulated_value move_action both_held
     == pressed_scales both_held (runtime_bindings move_action)
  /\ pressed_scales both_held (runtime_bindings move_action) == 0.
Proof.
  assert (H : Forall plain_button (runtime_bindings move_action))
    by (repeat constructor).
  split; [exact H|]. split.
  - apply (plain_buttons_add_up move_action both_held H).
  - vm_compute. reflexivity.
Defined.

(** Held buttons read the same in both frames. *)
Lemma held_reads_the_same first second rbs :
  (forall rb, rb ∈ rbs ->
     button_of (descriptor rb) second
     = held_as (button_of (descriptor rb) first)) ->
  pressed_scales second rbs = pressed_scales first rbs
  /\ some_pressed second rbs = some_pressed first rbs
  /\ some_just_pressed second rbs = false
  /\ some_just_released second rbs = false.
Proof.
  unfold pressed_scales, some_pressed, some_just_pressed, some_just_released.
  induction rbs as [|rb rbs IH]; intros Hheld; cbn; [done|].
  destruct IH as (H1 & H2 & H3 & H4).
  { intros rb' Hin. apply Hheld. by right. }
  rewrite (Hheld rb) by (by left). rewrite H1, H2, H3, H4.
  unfold held_as, just_pressed, just_released. cbn.
  destruct (pressed (button_of (descriptor rb) first)); done.
Qed.

(** X5: buttons that are held do not trigger again.  On an action of plain
    buttons without smoothing, a frame in which every bound button reads as
    it was left by the frame before ([pressed] unchanged, no edge) emits the
    same value and the same [active], and neither [triggered] nor
    [released]. *)
Theorem held_buttons_do_not_retrigger action first second :
  Forall plain_button (runtime_bindings action) ->
  smoothing_window (spec action) <= 0 ->
  (forall rb, rb ∈ runtime_bindings action ->
     button_of (descriptor rb) second
     = held_as (button_of (descriptor rb) first)) ->
  let r1 := compute_state action first in
  let r2 := compute_state (snd r1) second in
  value (fst r2) == value (fst r1)
  /\ active (fst r2) = active (fst r1)
  /\ triggered (fst r2) = false
  /\ released (fst r2) = false.
Proof.
  intros Hall Hw Hheld. cbv zeta.
  set (a1 := snd (compute_state action first)).
  assert (Hspec : spec a1 = spec action) by reflexivity.
  assert (Hrbs : runtime_bindings a1 = runtime_bindings action)
    by reflexivity.
  assert (Hprev : previous_value a1 = value (fst (compute_state action first)))
    by reflexivity.
  assert (Hall1 : Forall plain_button (runtime_bindings a1))
    by (rewrite Hrbs; exact Hall).
  destruct (plain_buttons_locals action first Hall) as (Hv1 & Hp1 & _ & _).
  destruct (plain_buttons_locals a1 second Hall1) as (Hv2 & Hp2 & Ht2 & Hr2).
  rewrite Hrbs in Hv2, Hp2, Ht2, Hr2.
  destruct (held_reads_the_same first second _ Hheld) as (E1 & E2 & E3 & E4).
  rewrite E1 in Hv2. rewrite E2 in Hp2. rewrite E3 in Ht2. rewrite E4 in Hr2.
  assert (Hval : value (fst (compute_state a1 second))
                 == value (fst (compute_state action first))).
  { rewrite !compute_state_value.
    rewrite (smooth_no_window a1) by (rewrite Hspec; exact Hw).
    rewrite (smooth_no_window action) by exact Hw.
    apply clamp_proper. rewrite Hv1, Hv2. reflexivity. }
  split; [exact Hval|]. split; [|split].
  - rewrite !compute_state_active, Hp1, Hp2. f_equal.
    apply flt_proper; [reflexivity|]. apply fabs_proper, Hval.
  - rewrite compute_state_triggered, Ht2, Hprev, Hspec. cbn [negb andb].
    destruct (flt 0 (analog_threshold (spec action))); [|reflexivity].
    apply andb_false_iff.
    destruct (fle (analog_threshold (spec action))
                  (fabs (value (fst (compute_state a1 second))))) eqn:E;
      [right|by left].
    apply flt_false. comparisons. rewrite (fabs_proper _ _ Hval) in E.
    exact E.
  - rewrite compute_state_released, Hr2, Hprev, Hspec. cbn [negb andb].
    destruct (flt 0 (analog_threshold (spec action))); [|reflexivity].
    apply andb_false_iff.
    destruct (fle (fabs (value (fst (compute_state a1 second))))
                  (analog_threshold (spec action) * (1 # 2))) eqn:E;
      [right|by left].
    apply flt_false. comparisons. rewrite (fabs_proper _ _ Hval) in E.
    exact E.
Qed.

Lemma held_buttons_do_not_retrigger_witness :
  (Forall plain_button (runtime_bindings move_action)
   /\ smoothing_window (spec move_action) <= 0
   /\ forall rb, rb ∈ runtime_bindings move_action ->
        button_of (descriptor rb) right_held
        = held_as (button_of (descriptor rb) right_down))
  /\ triggered (fst (compute_state move_action right_down)) = true
  /\ triggered
       (fst (compute_state (snd (compute_state move_action right_down))
               right_held)) = false
  /\ released
       (fst (compute_state (snd (compute_state move_action right_down))
               right_held)) = false.
Proof.
  assert (H1 : Forall plain_button (runtime_bindings move_action))
    by (repeat constructor).
  assert (H2 : smoothing_window (spec move_action) <= 0) by discriminate.
  assert (H3 : forall rb, rb ∈ runtime_bindings move_action ->
                 button_of (descriptor rb) right_held
                 = held_as (button_of (descriptor rb) right_down)).
  { intros rb Hin. cbn in Hin.
    repeat (apply elem_of_cons in Hin as [->|Hin];
            [vm_compute; reflexivity|]).
    by apply elem_of_nil in Hin. }
  split; [by repeat split|].
  split; [vm_compute; reflexivity|].
  apply (held_buttons_do_not_retrigger move_action right_down right_held
           H1 H2 H3).
Defined.

(** ** Bindings at rest and controls that are not there *)

Lemma binding_step_quiet action state L rb :
  previous_value action == 0 ->
  at_rest state rb ->
  quiet L ->
  quiet (binding_step action state L rb).
Proof.
  intros Hprev Hrest (Hv & Hp & Ht & Hr & Htv & Hon & Hoff).
  unfold at_rest in Hrest. unfold binding_step, quiet.
  destruct (kind (descriptor rb)) eqn:Hk.
  - (* a button *)
    destruct Hrest as [Hpr Hwas].
    rewrite extract_button_pressed_button_of,
      extract_button_triggered_button_of, extract_button_released_button_of.
    assert (Hjp : just_pressed (button_of (descriptor rb) state) = false)
      by (unfold just_pressed; by rewrite Hpr).
    assert (Hjr : just_released (button_of (descriptor rb) state) = false)
      by (unfold just_released; by rewrite Hwas, andb_false_r).
    rewrite Hpr, Hjp, Hjr, Hp, Ht, Hr.
    destruct (toggle (descriptor rb)) eqn:Htg.
    + rewrite (extract_toggle_transition_button_of _ _ Htg), Hjp.
      cbn. repeat split; assumption.
    + cbn. repeat split; try assumption. rewrite Hv. ring.
  - (* an axis *)
    assert (Hb : fle (fabs (extract_axis_value (descriptor rb) state))
                     (deadzone (descriptor rb)) = true)
      by (apply fle_true; exact Hrest).
    cbv zeta. rewrite Hb.
    assert (Hdz : 0 <= deadzone (descriptor rb))
      by (pose proof (Qabs_nonneg (extract_axis_value (descriptor rb) state));
          lra).
    assert (Hin : flt (deadzone (descriptor rb)) (fabs 0) = false)
      by (apply flt_false; exact Hdz).
    assert (Hpv : flt (deadzone (descriptor rb)) (fabs (previous_value action))
                  = false).
    { apply flt_false. rewrite (fabs_proper _ _ Hprev). exact Hdz. }
    rewrite Hin, Hpv.
    destruct (interpretation (descriptor rb)); cbn;
      rewrite ?Hp; repeat split; try assumption;
      try (rewrite Hv; ring); try reflexivity.
  - (* a pointer *)
    assert (Hb : fle (fabs (extract_axis_value (descriptor rb) state))
                     (deadzone (descriptor rb)) = true)
      by (apply fle_true; exact Hrest).
    cbv zeta. rewrite Hb.
    assert (Hdz : 0 <= deadzone (descriptor rb))
      by (pose proof (Qabs_nonneg (extract_axis_value (descriptor rb) state));
          lra).
    assert (Hin : flt (deadzone (descriptor rb)) (fabs 0) = false)
      by (apply flt_false; exact Hdz).
    assert (Hpv : flt (deadzone (descriptor rb)) (fabs (previous_value action))
                  = false).
    { apply flt_false. rewrite (fabs_proper _ _ Hprev). exact Hdz. }
    rewrite Hin, Hpv.
    destruct (interpretation (descriptor rb)); cbn;
      rewrite ?Hp; repeat split; try assumption;
      try (rewrite Hv; ring); try reflexivity.
Qed.

Lemma fold_quiet action state rbs : forall L,
  previous_value action == 0 ->
  Forall (at_rest state) rbs ->
  quiet L ->
  quiet (fold_left (binding_step action state) rbs L).
Proof.
  induction rbs as [|rb rbs IH]; intros L Hprev Hall HL; cbn; [exact HL|].
  apply Forall_cons in Hall as [Hrb Hall].
  apply IH; [exact Hprev|exact Hall|].
  by apply binding_step_quiet.
Qed.

Lemma apply_toggle_quiet L : quiet L -> quiet (apply_toggle L).
Proof.
  intros (Hv & Hp & Ht & Hr & Htv & Hon & Hoff). unfold apply_toggle, quiet.
  destruct (has_toggle L); [|by repeat split].
  cbn. rewrite Htv, Hon, Hoff. by repeat split.
Qed.

Lemma smooth_zero action state v :
  previous_value action == 0 -> v == 0 -> smooth action state v == 0.
Proof.
  intros Hp Hv. unfold smooth.
  destruct (flt 0 (smoothing_window (spec action))
            && flt 0 (delta_time state)); [|exact Hv].
  rewrite Hp, Hv. ring.
Qed.

(** An action at rest stays at rest. *)
Lemma resting_frame action state :
  Forall (at_rest state) (runtime_bindings action) ->
  toggle_state action = false ->
  previous_value action == 0 ->
  let r := compute_state action state in
  value (fst r) == 0 /\ active (fst r) = false
  /\ triggered (fst r) = false /\ released (fst r) = false
  /\ toggle_state (snd r) = false /\ previous_value (snd r) == 0.
Proof.
  intros Hall Hts Hprev. cbv zeta.
  assert (Hinit : quiet (init_locals action)).
  { unfold quiet, init_locals. cbn. rewrite Hts. by repeat split. }
  pose proof (fold_quiet action state _ _ Hprev Hall Hinit) as Hfold.
  fold (fold_bindings action state) in Hfold.
  pose proof (apply_toggle_quiet _ Hfold) as (Hv & Hp & Ht & Hr & _).
  assert (Hval : value (fst (compute_state action state)) == 0).
  { rewrite compute_state_value. apply smooth_zero; [exact Hprev|].
    unfold accumulated_value. rewrite (clamp_proper _ 0 _ _ Hv).
    reflexivity. }
  assert (Habs : fabs (value (fst (compute_state action state))) == 0)
    by (rewrite (fabs_proper _ _ Hval); reflexivity).
  assert (Hpabs : fabs (previous_value action) == 0)
    by (rewrite (fabs_proper _ _ Hprev); reflexivity).
  split; [exact Hval|]. split; [|split; [|split; [|split]]].
  - rewrite compute_state_active, Hp. cbn [orb].
    apply flt_false. rewrite Habs. discriminate.
  - rewrite compute_state_triggered, Ht. cbn [negb andb].
    destruct (flt 0 (analog_threshold (spec action))) eqn:E0;
      [|reflexivity].
    apply andb_false_iff. left. apply fle_false. comparisons.
    rewrite Habs. exact E0.
  - rewrite compute_state_released, Hr. cbn [negb andb].
    destruct (flt 0 (analog_threshold (spec action))) eqn:E0;
      [|reflexivity].
    apply andb_false_iff. right. apply flt_false. comparisons.
    rewrite Hpabs. lra.
  - destruct Hfold as (_ & _ & _ & _ & Htv & _).
    unfold compute_state. cbn [snd toggle_state].
    rewrite Htv. by destruct (has_toggle _).
  - exact Hval.
Qed.

(** X6: an action at rest stays at rest.  Starting with the toggle off and
    a previous value of 0 (as [load] leaves it), over any number of frames
    in which every bound button is up (and was up) and every axis reading
    is within its deadzone, every emitted state is neutral: value 0, not
    active, neither triggered nor released, whatever the bindings, scales,
    smoothing and threshold; the toggle stays off. *)
Theorem resting_action_is_neutral frames : forall action,
  toggle_state action = false ->
  previous_value action == 0 ->
  Forall (fun state => Forall (at_rest state) (runtime_bindings action))
         frames ->
  Forall neutral (fst (run_frames action frames))
  /\ toggle_state (snd (run_frames action frames)) = false
  /\ previous_value (snd (run_frames action frames)) == 0.
Proof.
  induction frames as [|state frames IH]; intros action Hts Hprev Hall.
  - cbn. by repeat split.
  - apply Forall_cons in Hall as [Hrest Hall].
    destruct (resting_frame action state Hrest Hts Hprev)
      as (Hv & Ha & Ht & Hr & Hts1 & Hprev1).
    specialize (IH (snd (compute_state action state)) Hts1 Hprev1 Hall).
    cbn [run_frames].
    destruct (compute_state action state) as [s action1].
    cbn [fst snd] in *.
    destruct (run_frames action1 frames) as [ss action2].
    cbn [fst snd] in *. destruct IH as (IH1 & IH2 & IH3).
    split; [|by split]. apply Forall_cons. split; [|exact IH1].
    by repeat split.
Qed.

(** A control that is not in the snapshot reads as a button that is up, or
    as an axis at zero. *)
Lemma absent_control_reading state d :
  control_absent state d ->
  match kind d with
  | Button => button_of d state = kEmptyButton
  | _ => extract_axis_value d state == 0
  end.
Proof.
  unfold control_absent, button_of, extract_axis_value, keyboard_get,
    mouse_get, get_button, axis_value.
  destruct (kind d), (device d); intros H; rewrite ?H;
    try reflexivity; try exact (Qmult_0_l _);
    repeat match goal with
    | |- context [String.eqb (control d) ?name] =>
        destruct (String.eqb_spec (control d) name) as [E|_];
        [exfalso; apply H; rewrite E; set_solver|]
    end; reflexivity.
Qed.

(** X7: a control that the snapshot does not hold is no error.  A button
    binding on a key or button that is not in its device's map reads as
    not pressed, without press or release edge and without toggle
    transition; an axis or pointer binding on a key or gamepad axis that is
    not there, or on a mouse control other than x, delta_x, y, delta_y,
    wheel, scroll, position_x and position_y, reads as 0. *)
Theorem absent_control_reads_neutral state d :
  control_absent state d ->
  match kind d with
  | Button =>
      extract_button_pressed d state = false
      /\ extract_button_triggered d state = false
      /\ extract_button_released d state = false
      /\ extract_toggle_transition d state = false
  | _ => extract_axis_value d state == 0
  end.
Proof.
  intros H. pose proof (absent_control_reading state d H) as Hr.
  destruct (kind d); [|exact Hr|exact Hr].
  rewrite extract_button_pressed_button_of,
    extract_button_triggered_button_of, extract_button_released_button_of.
  unfold extract_toggle_transition.
  assert (Ht : match device d with
               | Keyboard => just_pressed (keyboard_get (keyboard state) (control d))
               | Mouse => just_pressed (mouse_get (mouse state) (control d))
               | Gamepad => just_pressed (get_button (gamepad state) (control d))
               end = just_pressed (button_of d state))
    by (unfold button_of; by destruct (device d)).
  rewrite Ht, Hr. cbn. by destruct (toggle d).
Qed.

Lemma resting_action_is_neutral_witness :
  (toggle_state mixed_action = false
   /\ previous_value mixed_action == 0
   /\ Forall (fun state =>
                Forall (at_rest state) (runtime_bindings mixed_action))
             [idle_frame; idle_frame])
  /\ Forall neutral (fst (run_frames mixed_action [idle_frame; idle_frame])).
Proof.
  assert (Hrest : Forall (at_rest idle_frame) (runtime_bindings mixed_action)).
  { repeat (apply Forall_cons; split); try (by constructor);
      vm_compute; try (split; reflexivity); discriminate. }
  assert (Hall : Forall (fun state =>
                   Forall (at_rest state) (runtime_bindings mixed_action))
                   [idle_frame; idle_frame])
    by (apply Forall_cons; split; [exact Hrest|];
        apply Forall_cons; split; [exact Hrest|constructor]).
  split; [split; [reflexivity|split; [reflexivity|exact Hall]]|].
  apply (resting_action_is_neutral [idle_frame; idle_frame] mixed_action
           eq_refl (Qeq_refl 0) Hall).
Defined.

Lemma absent_control_reads_neutral_witness :
  (control_absent idle_frame (key_toggle "KeyC")
   /\ control_absent idle_frame
        {| device := Mouse; kind := Pointer; control := "tilt"; scale := 2;
           deadzone := 1 # 10; toggle := false; interpretation := Digital |})
  /\ (extract_button_pressed (key_toggle "KeyC") idle_frame = false
      /\ extract_button_triggered (key_toggle "KeyC") idle_frame = false
      /\ extract_button_released (key_toggle "KeyC") idle_frame = false
      /\ extract_toggle_transition (key_toggle "KeyC") idle_frame = false)
  /\ extract_axis_value
       {| device := Mouse; kind := Pointer; control := "tilt"; scale := 2;
          deadzone := 1 # 10; toggle := false; interpretation := Digital |}
       idle_frame == 0.
Proof.
  assert (H1 : control_absent idle_frame (key_toggle "KeyC"))
    by (vm_compute; reflexivity).
  assert (H2 : control_absent idle_frame
                 {| device := Mouse; kind := Pointer; control := "tilt";
                    scale := 2; deadzone := 1 # 10; toggle := false;
                    interpretation := Digital |}).
  { unfold control_absent. cbn [kind device control]. intros H.
    repeat (apply elem_of_cons in H as [H|H]; [discriminate|]).
    by apply elem_of_nil in H. }
  split; [by split|]. split.
  - exact (absent_control_reads_neutral idle_frame (key_toggle "KeyC") H1).
  - exact (absent_control_reads_neutral idle_frame _ H2).
Defined.

(** ** Toggle bindings *)

(** One toggle button binding in the loop. *)
Lemma binding_step_toggle action state L rb :
  toggle_button rb ->
  let pressed_now := just_pressed (button_of (descriptor rb) state) in
  let L' := binding_step action state L rb in
  acc_value L' = acc_value L
  /\ has_toggle L' = true
  /\ toggle_value L' = xorb (toggle_value L) pressed_now
  /\ acc_toggle_scale L' = scale (descriptor rb).
Proof.
  intros [Hk Ht]. cbv zeta. unfold binding_step. rewrite Hk, Ht.
  rewrite (extract_toggle_transition_button_of _ _ Ht).
  destruct (just_pressed (button_of (descriptor rb) state)); cbn;
    repeat split; by destruct (toggle_value L).
Qed.

Lemma press_count_cons state rb rbs :
  press_count state (rb :: rbs)
  = (if just_pressed (button_of (descriptor rb) state)
     then S (press_count state rbs) else press_count state rbs).
Proof.
  unfold press_count. rewrite filter_cons.
  destruct (just_pressed (button_of (descriptor rb) state)) eqn:E.
  - rewrite decide_True by reflexivity. reflexivity.
  - rewrite decide_False by discriminate. reflexivity.
Qed.

(** The loop over toggle bindings: one flip per press edge, and the scale
    of the last binding. *)
Lemma fold_toggle_buttons action state rbs : forall L,
  Forall toggle_button rbs ->
  let L' := fold_left (binding_step action state) rbs L in
  acc_value L' = acc_value L
  /\ has_toggle L' = (has_toggle L || negb (bool_decide (rbs = [])))
  /\ toggle_value L'
     = xorb (toggle_value L) (Nat.odd (press_count state rbs))
  /\ acc_toggle_scale L'
     = match last rbs with
       | Some rb => scale (descriptor rb)
       | None => acc_toggle_scale L
       end.
Proof.
  induction rbs as [|rb rbs IH]; intros L Hall; cbv zeta.
  - cbn. rewrite orb_false_r, xorb_false_r. done.
  - apply Forall_cons in Hall as [Hrb Hall].
    specialize (IH (binding_step action state L rb) Hall). cbv zeta in IH.
    destruct IH as (Hv & Hh & Ht & Hs).
    destruct (binding_step_toggle action state L rb Hrb)
      as (Hv1 & Hh1 & Ht1 & Hs1).
    cbn [fold_left]. rewrite Hv, Hh, Ht, Hs, Hv1, Hh1, Ht1, Hs1.
    rewrite press_count_cons.
    split; [reflexivity|]. split.
    { rewrite (bool_decide_eq_false_2 (rb :: rbs = [])) by discriminate.
      cbn. by rewrite orb_true_r. }
    split.
    + destruct (just_pressed (button_of (descriptor rb) state)).
      * rewrite Nat.odd_succ, <- Nat.negb_odd.
        generalize (Nat.odd (press_count state rbs)) as parity.
        intros parity. destruct (toggle_value L), parity; reflexivity.
      * by rewrite xorb_false_r.
    + rewrite (last_cons rb rbs). by destruct (last rbs).
Qed.

(** X8: several toggle bindings share one toggle.  On an action whose
    bindings are all toggle buttons, a frame flips [toggle_state] once for
    every binding whose button has a press edge: the new state is the old
    one when that number is even (two toggle buttons pressed in the same
    frame cancel) and the opposite when it is odd.  The scale kept in
    memory is that of the last binding in declared order, and the
    accumulated value is that scale when the toggle ends up on and 0 when it
    ends up off. *)
Theorem toggle_flips_once_per_press action state :
  Forall toggle_button (runtime_bindings action) ->
  runtime_bindings action <> [] ->
  let r := compute_state action state in
  toggle_state (snd r)
  = xorb (toggle_state action)
         (Nat.odd (press_count state (runtime_bindings action)))
  /\ (forall rb, last (runtime_bindings action) = Some rb ->
      toggle_scale (snd r) = scale (descriptor rb))
  /\ accumulated_value action state
     == (if toggle_state (snd r) then toggle_scale (snd r) else 0).
Proof.
  intros Hall Hne. cbv zeta.
  destruct (fold_toggle_buttons action state (runtime_bindings action)
              (init_locals action) Hall) as (Hv & Hh & Ht & Hs).
  fold (fold_bindings action state) in Hv, Hh, Ht, Hs.
  rewrite bool_decide_eq_false_2 in Hh by exact Hne.
  rewrite orb_true_r in Hh.
  unfold compute_state, accumulated_value, apply_toggle.
  cbn [snd toggle_state toggle_scale]. rewrite Hh, Ht, Hs.
  cbn [acc_value]. rewrite Hv.
  split; [reflexivity|]. split.
  - intros rb Hlast. by rewrite Hlast.
  - destruct (xorb _ _); cbn [init_locals acc_value]; [ring|reflexivity].
Qed.

Lemma toggle_flips_once_per_press_witness :
  (Forall toggle_button (runtime_bindings two_toggles_action)
   /\ runtime_bindings two_toggles_action <> []
   /\ last (runtime_bindings two_toggles_action)
      = Some (Build_RuntimeBinding (half_toggle "KeyV")))
  /\ toggle_state (snd (compute_state two_toggles_action both_toggles_down))
     = xorb (toggle_state two_toggles_action)
            (Nat.odd (press_count both_toggles_down
                        (runtime_bindings two_toggles_action)))
  /\ toggle_state (snd (compute_state two_toggles_action both_toggles_down))
     = false
  /\ toggle_state (snd (compute_state two_toggles_action second_toggle_down))
     = true
  /\ toggle_scale (snd (compute_state two_toggles_action second_toggle_down))
     = scale (half_toggle "KeyV").
Proof.
  assert (H1 : Forall toggle_button (runtime_bindings two_toggles_action))
    by (repeat constructor).
  assert (H2 : runtime_bindings two_toggles_action <> []) by discriminate.
  split; [by repeat split|]. split; [|split; [|split]].
  - apply (toggle_flips_once_per_press two_toggles_action both_toggles_down
             H1 H2).
  - vm_compute. reflexivity.
  - vm_compute. reflexivity.
  - exact (proj1 (proj2 (toggle_flips_once_per_press two_toggles_action
                           second_toggle_down H1 H2))
                  (Build_RuntimeBinding (half_toggle "KeyV")) eq_refl).
Defined.

(** A binding that is not a toggle button leaves [has_toggle] alone. *)
Lemma binding_step_no_toggle action state L rb :
  no_toggle (descriptor rb) ->
  has_toggle (binding_step action state L rb) = has_toggle L.
Proof.
  intros Hno. unfold binding_step, no_toggle in *.
  destruct (kind (descriptor rb)) eqn:Hk.
  - destruct (toggle (descriptor rb)) eqn:Ht; [exfalso; by apply Hno|].
    reflexivity.
  - by destruct (interpretation (descriptor rb)).
  - by destruct (interpretation (descriptor rb)).
Qed.

Lemma fold_no_toggle action state rbs : forall L,
  Forall (fun rb => no_toggle (descriptor rb)) rbs ->
  has_toggle (fold_left (binding_step action state) rbs L) = has_toggle L.
Proof.
  induction rbs as [|rb rbs IH]; intros L Hall; cbn; [reflexivity|].
  apply Forall_cons in Hall as [Hrb Hall].
  rewrite (IH _ Hall). by apply binding_step_no_toggle.
Qed.

(** Without a toggle binding a frame resets the toggle memory. *)
Lemma compute_state_resets_toggle action state :
  Forall (fun rb => no_toggle (descriptor rb)) (runtime_bindings action) ->
  toggle_state (snd (compute_state action state)) = false
  /\ toggle_scale (snd (compute_state action state)) = 1.
Proof.
  intros Hall. unfold compute_state. cbn [snd toggle_state toggle_scale].
  unfold fold_bindings. rewrite (fold_no_toggle _ _ _ _ Hall).
  split; reflexivity.
Qed.

(** X9: the toggle memory lives only as long as a toggle binding does.
    [rebind] keeps [toggle_state] and [toggle_scale], but when the new
    bindings hold no toggle button the next evaluation of the action resets
    them to off and 1, whatever they were and whatever the snapshot. *)
Theorem toggle_forgotten_without_toggle_binding
    (_actions : gmap string RuntimeAction) action it new_bindings state :
  _actions !! action = Some it ->
  Forall no_toggle new_bindings ->
  let rebound := snd (rebind action new_bindings _actions) in
  let evaluated := snd (evaluate_action action state rebound) in
  exists it1 it2,
    rebound !! action = Some it1
    /\ toggle_state it1 = toggle_state it
    /\ toggle_scale it1 = toggle_scale it
    /\ evaluated !! action = Some it2
    /\ toggle_state it2 = false
    /\ toggle_scale it2 = 1.
Proof.
  intros Hit Hall. cbv zeta. unfold rebind. rewrite Hit. cbn [snd].
  unfold evaluate_action. rewrite lookup_insert_eq. cbn [snd].
  rewrite lookup_insert_eq. do 2 eexists.
  split; [reflexivity|]. split; [reflexivity|]. split; [reflexivity|].
  split; [reflexivity|].
  apply compute_state_resets_toggle. cbn [runtime_bindings].
  apply Forall_fmap. exact Hall.
Qed.

Lemma toggle_forgotten_without_toggle_binding_witness :
  (crouched_table !! "crouch"
   = Some (snd (compute_state crouch_action toggle_key_down))
   /\ toggle_state (snd (compute_state crouch_action toggle_key_down)) = true
   /\ Forall no_toggle [key_button "KeyC" 1])
  /\ exists it1 it2,
       snd (rebind "crouch" [key_button "KeyC" 1] crouched_table) !! "crouch"
       = Some it1
       /\ toggle_state it1
          = toggle_state (snd (compute_state crouch_action toggle_key_down))
       /\ toggle_scale it1
          = toggle_scale (snd (compute_state crouch_action toggle_key_down))
       /\ snd (evaluate_action "crouch" toggle_key_held
                 (snd (rebind "crouch" [key_button "KeyC" 1] crouched_table)))
          !! "crouch" = Some it2
       /\ toggle_state it2 = false
       /\ toggle_scale it2 = 1.
Proof.
  assert (H1 : crouched_table !! "crouch"
               = Some (snd (compute_state crouch_action toggle_key_down)))
    by (vm_compute; reflexivity).
  assert (H2 : Forall no_toggle [key_button "KeyC" 1]).
  { apply Forall_cons. split; [|constructor]. intros [_ Ht]. discriminate Ht. }
  split; [split; [exact H1|split; [vm_compute; reflexivity|exact H2]]|].
  exact (toggle_forgotten_without_toggle_binding crouched_table "crouch" _
           [key_button "KeyC" 1] toggle_key_held H1 H2).
Defined.

(** ** Analog axes and the threshold *)

(** An analog axis binding raises no edge and touches no toggle local. *)
Lemma binding_step_analog action state L rb :
  analog_axis rb ->
  let L' := binding_step action state L rb in
  any_triggered L' = any_triggered L /\ any_released L' = any_released L
  /\ has_toggle L' = has_toggle L
  /\ toggle_turned_on L' = toggle_turned_on L
  /\ toggle_turned_off L' = toggle_turned_off L.
Proof.
  intros [Hk Hi]. cbv zeta. unfold binding_step. rewrite Hi.
  destruct (kind (descriptor rb)); [done| |]; by repeat split.
Qed.

Lemma fold_analog action state rbs : forall L,
  Forall analog_axis rbs ->
  let L' := fold_left (binding_step action state) rbs L in
  any_triggered L' = any_triggered L /\ any_released L' = any_released L
  /\ has_toggle L' = has_toggle L
  /\ toggle_turned_on L' = toggle_turned_on L
  /\ toggle_turned_off L' = toggle_turned_off L.
Proof.
  induction rbs as [|rb rbs IH]; intros L Hall; cbv zeta; [done|].
  apply Forall_cons in Hall as [Hrb Hall].
  specialize (IH (binding_step action state L rb) Hall). cbv zeta in IH.
  destruct IH as (H1 & H2 & H3 & H4 & H5).
  destruct (binding_step_analog action state L rb Hrb)
    as (G1 & G2 & G3 & G4 & G5).
  cbn [fold_left]. rewrite H1, H2, H3, H4, H5. by repeat split.
Qed.

(** X10: an action of analog axes has edges only by the threshold, with
    hysteresis.  [triggered] holds exactly when the threshold is positive
    and the magnitude of the emitted value has reached it from below it;
    [released] holds exactly when the threshold is positive and the
    magnitude has come down to half the threshold or less from above half.
    So with a threshold of 0 or less such an action never triggers or
    releases. *)
Theorem analog_edges_come_from_the_threshold action state :
  Forall analog_axis (runtime_bindings action) ->
  let s := fst (compute_state action state) in
  let threshold := analog_threshold (spec action) in
  (triggered s = true <->
   0 < threshold /\ threshold <= Qabs (value s)
   /\ Qabs (previous_value action) < threshold)
  /\ (released s = true <->
      0 < threshold /\ Qabs (value s) <= threshold * (1 # 2)
      /\ threshold * (1 # 2) < Qabs (previous_value action)).
Proof.
  intros Hall. cbv zeta.
  destruct (fold_analog action state (runtime_bindings action)
              (init_locals action) Hall) as (Ht & Hr & Hh & _).
  fold (fold_bindings action state) in Ht, Hr, Hh.
  assert (Ht' : any_triggered (apply_toggle (fold_bindings action state))
                = false).
  { unfold apply_toggle. rewrite Hh. cbn [init_locals has_toggle].
    exact Ht. }
  assert (Hr' : any_released (apply_toggle (fold_bindings action state))
                = false).
  { unfold apply_toggle. rewrite Hh. cbn [init_locals has_toggle].
    exact Hr. }
  rewrite compute_state_triggered, compute_state_released, Ht', Hr'.
  cbn [negb andb]. unfold fabs.
  split.
  - destruct (flt 0 (analog_threshold (spec action))) eqn:E0.
    + rewrite andb_true_iff, fle_true, flt_true. apply flt_true in E0.
      tauto.
    + apply flt_false in E0. split; [discriminate|]. intros [H _]. lra.
  - destruct (flt 0 (analog_threshold (spec action))) eqn:E0.
    + rewrite andb_true_iff, fle_true, flt_true. apply flt_true in E0.
      tauto.
    + apply flt_false in E0. split; [discriminate|]. intros [H _]. lra.
Qed.

Lemma analog_edges_come_from_the_threshold_witness :
  (Forall analog_axis (runtime_bindings steer_action)
   /\ 0 < analog_threshold (spec steer_action)
   /\ analog_threshold (spec steer_action)
      <= Qabs (value (fst (compute_state steer_action (stick_at (1 # 2)))))
   /\ Qabs (previous_value steer_action) < analog_threshold (spec steer_action))
  /\ triggered (fst (compute_state steer_action (stick_at (1 # 2)))) = true.
Proof.
  assert (H0 : Forall analog_axis (runtime_bindings steer_action)).
  { apply Forall_cons. split; [|constructor]. split; [discriminate|reflexivity]. }
  assert (H1 : 0 < analog_threshold (spec steer_action)) by reflexivity.
  assert (H2 : analog_threshold (spec steer_action)
               <= Qabs (value (fst (compute_state steer_action
                                      (stick_at (1 # 2))))))
    by (vm_compute; discriminate).
  assert (H3 : Qabs (previous_value steer_action)
               < analog_threshold (spec steer_action)) by reflexivity.
  split; [by repeat split|].
  apply (proj1 (analog_edges_come_from_the_threshold steer_action
                  (stick_at (1 # 2)) H0)).
  by repeat split.
Defined.
